(** * MoviePilot-Server: the counter endpoints and the statistic cache

    A shallow embedding of [main.py]: the request handlers
    [plugin_install], [subscribe_add], [subscribe_done],
    [plugin_statistic] and [subscribe_statistic], over a model of the two
    collaborators they call, the ORM classes of [models] and the
    [cacheout.Cache] instance [StatisticCache]. *)

From Stdlib Require Import Ascii ZArith List String Bool Lia.
From Stdlib Require Import PrimFloat DecimalString DecimalZ Permutation.
Import ListNotations.

Local Open Scope string_scope.
Local Open Scope list_scope.
Local Open Scope Z_scope.

#[local] Set Warnings "-register-all".

(** ** Python values

    What a handler returns and what the cache stores: [None], numbers,
    strings, lists and dicts.  A dict keeps its insertion order. *)

Inductive pyval : Type :=
| PNone
| PBool (b : bool)
| PInt (z : Z)
| PFloat (f : float)
| PStr (s : string)
| PList (l : list pyval)
| PDict (d : list (string * pyval)).

(** Python's truth test, the one [not v] negates. *)
Definition truthy (v : pyval) : bool :=
  match v with
  | PNone => false
  | PBool b => b
  | PInt z => negb (z =? 0)
  | PFloat f => negb (PrimFloat.eqb f 0%float)
  | PStr s => negb (String.eqb s "")
  | PList l => match l with [] => false | _ :: _ => true end
  | PDict d => match d with [] => false | _ :: _ => true end
  end.

(** [d[k] = v]: an existing key keeps its place, a new key goes last. *)
Fixpoint dict_set (k : string) (v : pyval) (d : list (string * pyval))
  : list (string * pyval) :=
  match d with
  | [] => [(k, v)]
  | (k', v') :: d' =>
      if String.eqb k' k then (k, v) :: d' else (k', v') :: dict_set k v d'
  end.

Definition of_opt {A} (inj : A -> pyval) (o : option A) : pyval :=
  match o with Some a => inj a | None => PNone end.

(** ** Exceptions

    A handler either returns or leaves with an exception.  [main.py] raises
    none itself; the names are those of the error taxonomy. *)

Inductive error : Type :=
| InvalidIdentity
| InvalidPagination
| PersistenceUnavailable
| CacheLoadFailure.

Inductive result (A : Type) : Type :=
| Ok (a : A)
| Err (e : error).
Arguments Ok {A} a.
Arguments Err {A} e.

Definition bind {A B} (r : result A) (k : A -> result B) : result B :=
  match r with
  | Ok a => k a
  | Err e => Err e
  end.

Notation "x <- c ;; k" := (bind c (fun x => k))
  (at level 61, c at next level, right associativity).
Notation "' pat <- c ;; k" := (bind c (fun x => match x with pat => k end))
  (at level 61, pat pattern, c at next level, right associativity).

(** ** The plugin table *)

Module PluginStatistics.

Record t : Type := mk { id : Z; plugin_id : string; count : Z }.

Definition table : Type := list t.

Definition with_count (r : t) (c : Z) : t :=
  {| id := id r; plugin_id := plugin_id r; count := c |}.

(** The primary key given to a new row. *)
Definition next_id (tb : table) : Z :=
  1 + fold_right Z.max 0 (map id tb).

(** Modelled from the spec: [models.PluginStatistics.read], the point
    lookup of the row by [pluginId]; [None] when there is none. *)
Definition read (tb : table) (pid : string) : option t :=
  find (fun r => String.eqb (plugin_id r) pid) tb.

(** Modelled from the spec: [models.PluginStatistics.create], which
    persists the new row [self]. *)
Definition create (pid : string) (c : Z) (tb : table) : table :=
  tb ++ [mk (next_id tb) pid c].

(** Modelled from the spec: [models.PluginStatistics.update] with the
    payload [{"count": c}], which persists the new count of the row
    [self]. *)
Definition update (self : t) (c : Z) (tb : table) : table :=
  map (fun r => if id r =? id self then with_count r c else r) tb.

(** Modelled from the spec: [models.PluginStatistics.list], every row. *)
Definition list (tb : table) : table := tb.

End PluginStatistics.

(** ** The subscription table *)

(** The request body of the subscription endpoints (the pydantic model
    [SubscribeStatistic]); every field is optional. *)
Record SubscribeStatistic : Type := {
  name : option string;
  year : option string;
  type : option string;
  tmdbid : option Z;
  imdbid : option string;
  tvdbid : option Z;
  doubanid : option string;
  season : option Z;
  poster : option string;
  backdrop : option string;
  vote : option float;
  description : option string
}.

(** The value of [x or y] for an optional integer [x] and an optional
    string [y]. *)
Inductive media_id : Type :=
| MidInt (n : Z)
| MidStr (s : string).

(** [subscribe.tmdbid or subscribe.doubanid]: the integer when it is there
    and not zero, otherwise the string operand as it is, [None] included. *)
Definition mid_of (subscribe : SubscribeStatistic) : option media_id :=
  match tmdbid subscribe with
  | Some n => if n =? 0 then option_map MidStr (doubanid subscribe)
              else Some (MidInt n)
  | None => option_map MidStr (doubanid subscribe)
  end.

Definition media_id_eqb (a b : media_id) : bool :=
  match a, b with
  | MidInt n, MidInt m => n =? m
  | MidStr s, MidStr u => String.eqb s u
  | _, _ => false
  end.

Definition opt_eqb {A} (eqb : A -> A -> bool) (a b : option A) : bool :=
  match a, b with
  | Some x, Some y => eqb x y
  | None, None => true
  | _, _ => false
  end.

Module SubscribeStatistics.

(** A row: the primary key, the columns filled from the request body,
    [bangumiid] (no request field carries it) and the counter. *)
Record t : Type := mk {
  id : Z;
  attrs : SubscribeStatistic;
  bangumiid : option Z;
  count : Z
}.

Definition table : Type := list t.

Definition with_count (r : t) (c : Z) : t :=
  {| id := id r; attrs := attrs r; bangumiid := bangumiid r; count := c |}.

Definition next_id (tb : table) : Z :=
  1 + fold_right Z.max 0 (map id tb).

(** The identity test of the lookup: same media id, same season. *)
Definition matches (mid : option media_id) (s : option Z) (r : t) : bool :=
  opt_eqb media_id_eqb (mid_of (attrs r)) mid
  && opt_eqb Z.eqb (season (attrs r)) s.

(** Modelled from the spec: [models.SubscribeStatistics.read], the point
    lookup by the identity [(mediaId, season)], where a row's [mediaId]
    is the first non-empty of its numeric and its string catalog id. *)
Definition read (tb : table) (mid : option media_id) (s : option Z)
  : option t :=
  find (matches mid s) tb.

(** Modelled from the spec: [models.SubscribeStatistics.create], which
    persists the new row [self], built from the request body. *)
Definition create (subscribe : SubscribeStatistic) (c : Z) (tb : table)
  : table :=
  tb ++ [mk (next_id tb) subscribe None c].

(** Modelled from the spec: [models.SubscribeStatistics.update] with the
    payload [{"count": c}]. *)
Definition update (self : t) (c : Z) (tb : table) : table :=
  map (fun r => if id r =? id self then with_count r c else r) tb.

(** Modelled from the spec: [models.SubscribeStatistics.delete], the
    delete by primary key. *)
Definition delete (sid : Z) (tb : table) : table :=
  filter (fun r => negb (id r =? sid)) tb.

Definition has_type (stype : string) (r : t) : bool :=
  opt_eqb String.eqb (type (attrs r)) (Some stype).

(** Modelled from the spec: [models.SubscribeStatistics.list], the rows
    of one type in insertion order, cut to the 1-indexed page; it fails
    with [InvalidPagination] unless [page] and [count] are positive. *)
Definition list (tb : table) (stype : string) (page count : Z)
  : result table :=
  if (page <=? 0) || (count <=? 0) then Err InvalidPagination
  else Ok (firstn (Z.to_nat count)
             (skipn (Z.to_nat ((page - 1) * count))
                (filter (has_type stype) tb))).

End SubscribeStatistics.

(** ** The database session: the two tables *)

Record Session : Type := {
  plugins : PluginStatistics.table;
  subscribes : SubscribeStatistics.table
}.

Definition empty_db : Session := {| plugins := []; subscribes := [] |}.

Definition set_plugins (db : Session) (tb : PluginStatistics.table) : Session :=
  {| plugins := tb; subscribes := subscribes db |}.

Definition set_subscribes (db : Session) (tb : SubscribeStatistics.table)
  : Session :=
  {| plugins := plugins db; subscribes := tb |}.

(** ** The counter endpoints *)

Definition success : pyval := PDict [("message", PStr "success")].

Definition plugin_install (pid : string) (db : Session)
  : result (pyval * Session) :=
  let plugin := PluginStatistics.read (plugins db) pid in
  match plugin with
  | None =>
      Ok (success, set_plugins db (PluginStatistics.create pid 1 (plugins db)))
  | Some plugin =>
      Ok (success,
          set_plugins db
            (PluginStatistics.update plugin
               (PluginStatistics.count plugin + 1) (plugins db)))
  end.

Fixpoint plugin_batch_install (pids : list string) (db : Session)
  : result (pyval * Session) :=
  match pids with
  | [] => Ok (success, db)
  | pid :: rest =>
      '(_, db1) <- plugin_install pid db ;;
      plugin_batch_install rest db1
  end.

Definition subscribe_add (subscribe : SubscribeStatistic) (db : Session)
  : result (pyval * Session) :=
  let sub := SubscribeStatistics.read (subscribes db)
               (mid_of subscribe) (season subscribe) in
  match sub with
  | None =>
      Ok (success,
          set_subscribes db
            (SubscribeStatistics.create subscribe 1 (subscribes db)))
  | Some sub =>
      Ok (success,
          set_subscribes db
            (SubscribeStatistics.update sub
               (SubscribeStatistics.count sub + 1) (subscribes db)))
  end.

Definition subscribe_done (subscribe : SubscribeStatistic) (db : Session)
  : result (pyval * Session) :=
  let sub := SubscribeStatistics.read (subscribes db)
               (mid_of subscribe) (season subscribe) in
  match sub with
  | Some sub =>
      if SubscribeStatistics.count sub <=? 1 then
        Ok (success,
            set_subscribes db
              (SubscribeStatistics.delete (SubscribeStatistics.id sub)
                 (subscribes db)))
      else
        Ok (success,
            set_subscribes db
              (SubscribeStatistics.update sub
                 (SubscribeStatistics.count sub - 1) (subscribes db)))
  | None => Ok (success, db)
  end.

Fixpoint subscribe_report (subs : list SubscribeStatistic) (db : Session)
  : result (pyval * Session) :=
  match subs with
  | [] => Ok (success, db)
  | subscribe :: rest =>
      '(_, db1) <- subscribe_add subscribe db ;;
      subscribe_report rest db1
  end.

(** ** The statistic cache

    [StatisticCache = Cache(maxsize=100, ttl=1800)] is an instance of
    [cacheout.Cache], which is imported and not part of [main.py]. *)

Module Cache.

(** A key with its value and the time it expires at, if any; the list is
    the cache's ordered dict, oldest insertion first. *)
Definition entry : Type := (string * (pyval * option Z))%type.

Record t : Type := mk { maxsize : Z; ttl : Z; entries : list entry }.

Definition with_entries (c : t) (es : list entry) : t :=
  {| maxsize := maxsize c; ttl := ttl c; entries := es |}.

Definition lookup (k : string) (es : list entry) : option (pyval * option Z) :=
  option_map snd (find (fun e => String.eqb (fst e) k) es).

Definition remove (k : string) (es : list entry) : list entry :=
  filter (fun e => negb (String.eqb (fst e) k)) es.

(** An entry is stale from its expiry time on. *)
Definition expired_at (now : Z) (e : option Z) : bool :=
  match e with
  | Some x => x <=? now
  | None => false
  end.

(** Modelled from the spec: the lookup inside [cacheout.Cache.get] and
    [in]; a live entry is returned, a stale one is dropped and counts as
    absent.  [now] is the reading of the timer. *)
Definition get_live (k : string) (now : Z) (c : t) : option pyval * t :=
  match lookup k (entries c) with
  | None => (None, c)
  | Some (v, e) =>
      if expired_at now e
      then (None, with_entries c (remove k (entries c)))
      else (Some v, c)
  end.

(** Modelled from the spec: [cacheout.Cache.get] with its default
    [None]. *)
Definition get (k : string) (now : Z) (c : t) : pyval * t :=
  let (o, c') := get_live k now c in
  (match o with Some v => v | None => PNone end, c').

(** The cache is full when it has a positive [maxsize] and holds that
    many entries. *)
Definition full (maxsize : Z) (es : list entry) : bool :=
  (0 <? maxsize) && (maxsize <=? Z.of_nat (List.length es)).

(** [while self.full(): self.popitem()], oldest entry first. *)
Fixpoint pop_while_full (maxsize : Z) (es : list entry) : list entry :=
  match es with
  | [] => []
  | _ :: tl => if full maxsize es then pop_while_full maxsize tl else es
  end.

Definition delete_expired (now : Z) (es : list entry) : list entry :=
  filter (fun e => negb (expired_at now (snd (snd e)))) es.

(** Modelled from the spec: [cacheout.Cache.evict], which drops the
    stale entries and then the oldest ones while the cache is full. *)
Definition evict (now : Z) (c : t) : t :=
  with_entries c (pop_while_full (maxsize c) (delete_expired now (entries c))).

(** Modelled from the spec: [cacheout.Cache.set]; room is made unless the
    key is live in the cache, and the entry is stored last with a fresh
    expiry time. *)
Definition set (k : string) (v : pyval) (now : Z) (c : t) : t :=
  let (o, c1) := get_live k now c in
  let c2 := match o with Some _ => c1 | None => evict now c1 end in
  with_entries c2
    (remove k (entries c2)
     ++ [(k, (v, if 0 <? ttl c then Some (now + ttl c) else None))]).

Definition keys (c : t) : list string := map fst (entries c).

(** The entries that are not stale at [now]. *)
Definition live (now : Z) (c : t) : list entry :=
  delete_expired now (entries c).

End Cache.

Definition StatisticCache : Cache.t :=
  {| Cache.maxsize := 100; Cache.ttl := 1800; Cache.entries := [] |}.

(** ** The statistic endpoints

    [t1], [t2] and [t3] are the readings of the timer at the cache calls of
    one request, in program order: the first [get], the [set], the last
    [get].  The cache is a global object, so a request that leaves with
    an exception still leaves its cache behind. *)

(** [str(n)] of an integer. *)
Definition str (n : Z) : string := NilEmpty.string_of_int (Z.to_int n).

(** [{sta.plugin_id: sta.count for sta in statistics}]. *)
Definition plugin_dict (statistics : PluginStatistics.table) : pyval :=
  PDict (fold_left
           (fun d sta =>
              dict_set (PluginStatistics.plugin_id sta)
                (PInt (PluginStatistics.count sta)) d)
           statistics []).

Definition plugin_statistic (db : Session) (t1 t2 t3 : Z) (cache : Cache.t)
  : result pyval * Cache.t :=
  let (v, cache) := Cache.get "plugin" t1 cache in
  if negb (truthy v) then
    let statistics := PluginStatistics.list (plugins db) in
    let cache := Cache.set "plugin" (plugin_dict statistics) t2 cache in
    let (v, cache) := Cache.get "plugin" t3 cache in
    (Ok v, cache)
  else
    let (v, cache) := Cache.get "plugin" t3 cache in
    (Ok v, cache).

(** The dict built for one row of the listing. *)
Definition sta_dict (sta : SubscribeStatistics.t) : pyval :=
  let a := SubscribeStatistics.attrs sta in
  PDict [ ("name", of_opt PStr (name a));
          ("year", of_opt PStr (year a));
          ("type", of_opt PStr (type a));
          ("tmdbid", of_opt PInt (tmdbid a));
          ("imdbid", of_opt PStr (imdbid a));
          ("tvdbid", of_opt PInt (tvdbid a));
          ("doubanid", of_opt PStr (doubanid a));
          ("bangumiid", of_opt PInt (SubscribeStatistics.bangumiid sta));
          ("season", of_opt PInt (season a));
          ("poster", of_opt PStr (poster a));
          ("backdrop", of_opt PStr (backdrop a));
          ("vote", of_opt PFloat (vote a));
          ("description", of_opt PStr (description a));
          ("count", PInt (SubscribeStatistics.count sta)) ].

Definition cache_key (stype : string) (page count : Z) : string :=
  ("subscribe_" ++ stype ++ "_" ++ str page ++ "_" ++ str count)%string.

Definition subscribe_statistic (stype : string) (page count : Z) (db : Session)
    (t1 t2 t3 : Z) (cache : Cache.t) : result pyval * Cache.t :=
  let cache_key := cache_key stype page count in
  let (v, cache) := Cache.get cache_key t1 cache in
  if negb (truthy v) then
    match SubscribeStatistics.list (subscribes db) stype page count with
    | Err e => (Err e, cache)
    | Ok statistics =>
        let cache := Cache.set cache_key (PList (map sta_dict statistics))
                       t2 cache in
        let (v, cache) := Cache.get cache_key t3 cache in
        (Ok v, cache)
    end
  else
    let (v, cache) := Cache.get cache_key t3 cache in
    (Ok v, cache).

(** The shape the two endpoints share, with the database query as a
    parameter: [loader] runs over a state [S] of its own, which it may
    change, so that a call of it shows in the result. *)
Definition read_through {S : Type} (key : string)
    (loader : S -> result pyval * S) (t1 t2 t3 : Z) (s : S) (cache : Cache.t)
  : result pyval * S * Cache.t :=
  let (v, cache) := Cache.get key t1 cache in
  if negb (truthy v) then
    match loader s with
    | (Err e, s') => (Err e, s', cache)
    | (Ok x, s') =>
        let cache := Cache.set key x t2 cache in
        let (v, cache) := Cache.get key t3 cache in
        (Ok v, s', cache)
    end
  else
    let (v, cache) := Cache.get key t3 cache in
    (Ok v, s, cache).

(** The queries of the two endpoints as loaders over the session. *)
Definition plugin_loader (db : Session) : result pyval * Session :=
  (Ok (plugin_dict (PluginStatistics.list (plugins db))), db).

Definition subscribe_loader (stype : string) (page count : Z) (db : Session)
  : result pyval * Session :=
  match SubscribeStatistics.list (subscribes db) stype page count with
  | Err e => (Err e, db)
  | Ok statistics => (Ok (PList (map sta_dict statistics)), db)
  end.

(** A loader that counts its calls. *)
Definition counting_loader (v : pyval) (calls : nat) : result pyval * nat :=
  (Ok v, S calls).

(** The count stored for a plugin, if it has a row. *)
Definition stored_count (pid : string) (db : Session) : option Z :=
  option_map PluginStatistics.count (PluginStatistics.read (plugins db) pid).

(** ** Concurrent requests

    The server runs each request on a worker thread.  One call of
    [plugin_install] is two accesses to the database, the lookup and then
    the write of a count computed from what the lookup returned, and
    [main.py] takes no lock around them: the accesses of concurrent calls
    interleave.  A schedule names the thread that takes the next step. *)

Module Interleaving.

(** Where a call of [plugin_install] stands. *)
Inductive pc : Type :=
| AtRead
| AtWrite (plugin : option PluginStatistics.t)
| Returned (v : pyval).

Definition thread_step (pid : string) (p : pc) (db : Session) : pc * Session :=
  match p with
  | AtRead => (AtWrite (PluginStatistics.read (plugins db) pid), db)
  | AtWrite None =>
      (Returned success,
       set_plugins db (PluginStatistics.create pid 1 (plugins db)))
  | AtWrite (Some plugin) =>
      (Returned success,
       set_plugins db
         (PluginStatistics.update plugin
            (PluginStatistics.count plugin + 1) (plugins db)))
  | Returned v => (Returned v, db)
  end.

Record config : Type := { threads : list pc; store : Session }.

Fixpoint set_nth {A} (i : nat) (x : A) (l : list A) : list A :=
  match l, i with
  | [], _ => []
  | _ :: tl, O => x :: tl
  | y :: tl, S j => y :: set_nth j x tl
  end.

Definition sched_step (pid : string) (cfg : config) (i : nat) : config :=
  match nth_error (threads cfg) i with
  | None => cfg
  | Some p =>
      let (p', db') := thread_step pid p (store cfg) in
      {| threads := set_nth i p' (threads cfg); store := db' |}
  end.

Definition run (pid : string) (sched : list nat) (cfg : config) : config :=
  fold_left (sched_step pid) sched cfg.

(** [N] calls that have not started yet. *)
Definition spawn (N : nat) (db : Session) : config :=
  {| threads := repeat AtRead N; store := db |}.

(** A schedule of [N] calls that runs each of them to its end: two steps
    for every thread, and no others. *)
Definition complete (N : nat) (sched : list nat) : bool :=
  forallb (fun i => Nat.eqb (count_occ Nat.eq_dec sched i) 2) (seq 0 N)
  && forallb (fun i => Nat.ltb i N) sched.

(** The calls one after another. *)
Definition serial (N : nat) : list nat :=
  flat_map (fun i => [i; i]) (seq 0 N).

(** One call to its end, then the others: all look up, then all write. *)
Definition racing (N : nat) : list nat :=
  [0; 0]%nat ++ seq 1 (N - 1) ++ seq 1 (N - 1).

(** The claim of no lost update, for [N] concurrent calls on [pid]. *)
Definition no_lost_update (pid : string) (N : nat) : Prop :=
  forall sched, complete N sched = true ->
    stored_count pid (store (run pid sched (spawn N empty_db)))
    = Some (Z.of_nat N).

End Interleaving.

(** ** Recency of use, for the eviction policy *)

Module LRU.

(** A use of [k] makes it the most recent key. *)
Definition touch (k : string) (order : list string) : list string :=
  filter (fun k' => negb (String.eqb k' k)) order ++ [k].

(** The keys used so far, least recently used first. *)
Definition recency (uses : list string) : list string :=
  fold_left (fun order k => touch k order) uses [].

Definition least_recently_used (uses : list string) : option string :=
  hd_error (recency uses).

End LRU.

(** An insertion is a key, its value and the time it is made at. *)
Definition ikey (i : string * pyval * Z) : string := fst (fst i).

(** The insertions of a list, in order. *)
Definition insert_all (ins : list (string * pyval * Z)) (c : Cache.t) : Cache.t :=
  fold_left (fun c i => Cache.set (ikey i) (snd (fst i)) (snd i) c) ins c.

(** ** Invariants of the subscription table *)

(** Every stored counter is at least one. *)
Definition counts_positive (tb : SubscribeStatistics.table) : Prop :=
  Forall (fun r => 1 <= SubscribeStatistics.count r) tb.

(** Primary keys grow along the table, so no two rows share one. *)
Fixpoint ids_increasing (lo : Z) (tb : SubscribeStatistics.table) : Prop :=
  match tb with
  | [] => True
  | r :: tl => lo < SubscribeStatistics.id r
               /\ ids_increasing (SubscribeStatistics.id r) tl
  end.

(** No two rows answer to the same identity. *)
Fixpoint identities_unique (tb : SubscribeStatistics.table) : Prop :=
  match tb with
  | [] => True
  | r :: tl =>
      SubscribeStatistics.read tl (mid_of (SubscribeStatistics.attrs r))
        (season (SubscribeStatistics.attrs r)) = None
      /\ identities_unique tl
  end.

Definition well_formed (db : Session) : Prop :=
  ids_increasing 0 (subscribes db) /\ identities_unique (subscribes db).

(** One report against the subscription counters. *)
Inductive op : Type :=
| Add (subscribe : SubscribeStatistic)
| Done (subscribe : SubscribeStatistic).

Definition apply_op (o : op) (db : Session) : result (pyval * Session) :=
  match o with
  | Add subscribe => subscribe_add subscribe db
  | Done subscribe => subscribe_done subscribe db
  end.

Fixpoint apply_ops (ops : list op) (db : Session) : result Session :=
  match ops with
  | [] => Ok db
  | o :: rest =>
      '(_, db1) <- apply_op o db ;;
      apply_ops rest db1
  end.

(** ** Statements and helpers for the counter endpoints *)

(** What one call of [plugin_install] leaves in the database. *)
Definition install_db (pid : string) (db : Session) : Session :=
  match plugin_install pid db with
  | Ok (_, db') => db'
  | Err _ => db
  end.

Fixpoint installs (n : nat) (pid : string) (db : Session) : Session :=
  match n with
  | O => db
  | S m => installs m pid (install_db pid db)
  end.

(** C2, as the claim states it: the call returns the resulting count. *)
Definition returns_resulting_count (pid : string) (db : Session) : Prop :=
  exists db' r,
    plugin_install pid db = Ok (PInt (PluginStatistics.count r), db')
    /\ PluginStatistics.read (plugins db') pid = Some r.

(** ** Statements and sample data for the subscription endpoints *)

(** A request body with no field set. *)
Definition no_fields : SubscribeStatistic :=
  {| name := None; year := None; type := None; tmdbid := None;
     imdbid := None; tvdbid := None; doubanid := None; season := None;
     poster := None; backdrop := None; vote := None; description := None |}.

(** Season 1 of the title with the numeric catalog id 603. *)
Definition title_603 : SubscribeStatistic :=
  {| name := Some "The Matrix"; year := Some "1999"; type := Some "tv";
     tmdbid := Some 603; imdbid := None; tvdbid := None; doubanid := None;
     season := Some 1; poster := None; backdrop := None;
     vote := Some 8.5%float; description := None |}.

(** The same identity reported with other descriptive fields. *)
Definition title_603_renamed : SubscribeStatistic :=
  {| name := Some "Matrix"; year := Some "2003"; type := Some "tv";
     tmdbid := Some 603; imdbid := Some "tt0133093"; tvdbid := None;
     doubanid := Some "1291843"; season := Some 1;
     poster := Some "poster.jpg"; backdrop := None;
     vote := Some 9.0%float; description := Some "resubmitted" |}.

(** C3, as the claim states it: a report with neither catalog id is
    rejected with [InvalidIdentity]. *)
Definition rejects_missing_identity : Prop :=
  forall subscribe db,
    tmdbid subscribe = None -> doubanid subscribe = None ->
    subscribe_add subscribe db = Err InvalidIdentity.

(** C4, as the claim states it: [subscribe_done] returns whether it deleted
    the row. *)
Definition deleted_flag (subscribe : SubscribeStatistic) (db : Session) : bool :=
  match SubscribeStatistics.read (subscribes db)
          (mid_of subscribe) (season subscribe) with
  | Some sub => SubscribeStatistics.count sub <=? 1
  | None => false
  end.

Definition returns_deleted_flag : Prop :=
  forall subscribe db, exists db',
    subscribe_done subscribe db = Ok (PBool (deleted_flag subscribe db), db').

(** The database after one report of [title_603]. *)
Definition db_603 : Session :=
  {| plugins := [];
     subscribes := [SubscribeStatistics.mk 1 title_603 None 1] |}.

(** ** Statements and helpers for the statistic cache *)

(** The entry an insertion [(key, value, time)] leaves in a cache with a
    positive [ttl]. *)
Definition stamp (ttl : Z) (i : string * pyval * Z) : Cache.entry :=
  (ikey i, (snd (fst i), Some (snd i + ttl))).

(** The result of [read_through] without the loader's state. *)
Definition forget_state {S : Type} (r : result pyval * S * Cache.t)
  : result pyval * Cache.t :=
  (fst (fst r), snd r).

(** What a request that misses the cache comes to: the loader runs in
    [s]; its exception leaves the cache as the first [get] left it, its
    value is stored at [t2] and returned. *)
Definition miss_outcome {S : Type} (key : string)
    (loader : S -> result pyval * S) (t1 t2 : Z) (s : S) (cache : Cache.t)
  : result pyval * S * Cache.t :=
  let c1 := snd (Cache.get key t1 cache) in
  match loader s with
  | (Err e, s') => (Err e, s', c1)
  | (Ok x, s') => (Ok x, s', Cache.set key x t2 c1)
  end.

(** C8, as the claim states it: a value stored at time [T] is returned
    unchanged, and the loader is not called, by every request before
    [T + ttl]. *)
Definition serves_live_entries : Prop :=
  forall (key : string) (v x : pyval) (T t : Z) (calls : nat) (c : Cache.t),
    0 < Cache.ttl c -> T <= t < T + Cache.ttl c ->
    read_through key (counting_loader x) t t t calls (Cache.set key v T c)
    = (Ok v, calls, Cache.set key v T c).

(** No entry expires before [tend]. *)
Definition live_through (tend : Z) (es : list Cache.entry) : Prop :=
  Forall (fun e => match snd (snd e) with
                   | Some x => tend <= x
                   | None => True
                   end) es.

(** Season 2 of the same title. *)
Definition title_603_season_2 : SubscribeStatistic :=
  {| name := Some "The Matrix"; year := Some "2003"; type := Some "tv";
     tmdbid := Some 603; imdbid := None; tvdbid := None; doubanid := None;
     season := Some 2; poster := None; backdrop := None;
     vote := None; description := None |}.

(** A table of three rows, two of the type ["tv"]. *)
Definition listing_table : SubscribeStatistics.table :=
  [ SubscribeStatistics.mk 1 title_603 None 2;
    SubscribeStatistics.mk 2 no_fields None 1;
    SubscribeStatistics.mk 4 title_603_season_2 None 5 ].

(** ** The remaining endpoints, and statements about them *)

(** [root()]. *)
Definition root : pyval :=
  PDict [("message", PStr "MoviePilot Server is running ...")].

(** A request to one of the endpoints that write to the database. *)
Inductive request : Type :=
| PluginInstall (pid : string)
| PluginBatchInstall (pids : list string)
| SubscribeAdd (subscribe : SubscribeStatistic)
| SubscribeDone (subscribe : SubscribeStatistic)
| SubscribeReport (subs : list SubscribeStatistic).

Definition handle (r : request) (db : Session) : result (pyval * Session) :=
  match r with
  | PluginInstall pid => plugin_install pid db
  | PluginBatchInstall pids => plugin_batch_install pids db
  | SubscribeAdd subscribe => subscribe_add subscribe db
  | SubscribeDone subscribe => subscribe_done subscribe db
  | SubscribeReport subs => subscribe_report subs db
  end.

(** The requests of a list, one after another. *)
Fixpoint handle_all (rs : list request) (db : Session) : result Session :=
  match rs with
  | [] => Ok db
  | r :: rest =>
      '(_, db1) <- handle r db ;;
      handle_all rest db1
  end.

(** Keys that grow along a list. *)
Fixpoint keys_increasing {A : Type} (key : A -> Z) (lo : Z) (l : list A)
  : Prop :=
  match l with
  | [] => True
  | a :: tl => lo < key a /\ keys_increasing key (key a) tl
  end.

(** The plugin table as the endpoints keep it: primary keys grow, no
    plugin has two rows, every count is at least 1. *)
Definition plugins_well_formed (db : Session) : Prop :=
  keys_increasing PluginStatistics.id 0 (plugins db)
  /\ NoDup (map PluginStatistics.plugin_id (plugins db))
  /\ Forall (fun r => 1 <= PluginStatistics.count r) (plugins db).

(** How often [pid] is in a batch. *)
Definition occurrences (pid : string) (pids : list string) : Z :=
  Z.of_nat (count_occ string_dec pids pid).

(** A stored count after [k] more reports. *)
Definition bumped (o : option Z) (k : Z) : option Z :=
  if k =? 0 then o
  else Some (match o with Some c => c | None => 0 end + k).

(** [d.get(k)]. *)
Definition dict_get (k : string) (d : list (string * pyval)) : option pyval :=
  option_map snd (find (fun e => String.eqb (fst e) k) d).

(** A batch of reports as the database it leaves. *)
Definition batch_db (pids : list string) (db : Session) : Session :=
  fold_left (fun db pid => install_db pid db) pids db.

(** No plugin loses its row or any of its count from [db] to [db']. *)
Definition plugins_grow (db db' : Session) : Prop :=
  forall pid c,
    stored_count pid db = Some c ->
    exists c', stored_count pid db' = Some c' /\ c <= c'.

(** A plugin table of two rows. *)
Definition db_two_plugins : Session :=
  {| plugins := [PluginStatistics.mk 1 "a" 3; PluginStatistics.mk 2 "b" 1];
     subscribes := [] |}.

(** The counter that reports and completions of one identity walk: a
    report adds one, a completion takes one off and stops at 0, which
    stands for no row. *)
Definition counter_step (c : Z) (add : bool) : Z :=
  if add then c + 1 else if c <=? 1 then 0 else c - 1.

Definition counter_walk (steps : list bool) (c : Z) : Z :=
  fold_left counter_step steps c.

(** The report ([true]) or the completion ([false]) of [subscribe]. *)
Definition op_of (subscribe : SubscribeStatistic) (add : bool) : op :=
  if add then Add subscribe else Done subscribe.

(** The table [tb] with, for a positive [c], one more row: that of
    [subscribe] with the count [c]. *)
Definition table_with (tb : SubscribeStatistics.table)
    (subscribe : SubscribeStatistic) (c : Z) : SubscribeStatistics.table :=
  if c <=? 0 then tb
  else tb ++ [SubscribeStatistics.mk (SubscribeStatistics.next_id tb)
                subscribe None c].

(** The count stored for an identity, if it has a row. *)
Definition subscribe_count (mid : option media_id) (s : option Z)
    (db : Session) : option Z :=
  option_map SubscribeStatistics.count
    (SubscribeStatistics.read (subscribes db) mid s).

(** Whether a request body resolves to the identity [(mid, s)]. *)
Definition has_identity (mid : option media_id) (s : option Z)
    (subscribe : SubscribeStatistic) : bool :=
  opt_eqb media_id_eqb (mid_of subscribe) mid
  && opt_eqb Z.eqb (season subscribe) s.

(** How many bodies of a batch resolve to [(mid, s)]. *)
Definition reports_of (mid : option media_id) (s : option Z)
    (subs : list SubscribeStatistic) : Z :=
  Z.of_nat (List.length (filter (has_identity mid s) subs)).

(** What one call of [subscribe_add] leaves in the database. *)
Definition add_db (subscribe : SubscribeStatistic) (db : Session) : Session :=
  match subscribe_add subscribe db with
  | Ok (_, db') => db'
  | Err _ => db
  end.

(** A batch of subscription reports as the database it leaves. *)
Definition report_db (subs : list SubscribeStatistic) (db : Session) : Session :=
  fold_left (fun db subscribe => add_db subscribe db) subs db.

(** A body with the string catalog id only. *)
Definition title_douban : SubscribeStatistic :=
  {| name := Some "Spirited Away"; year := Some "2001"; type := Some "movie";
     tmdbid := None; imdbid := None; tvdbid := None;
     doubanid := Some "1291561"; season := None; poster := None;
     backdrop := None; vote := None; description := None |}.

(** Whether the character [c] is in [s]. *)
Fixpoint has_char (c : Ascii.ascii) (s : string) : bool :=
  match s with
  | EmptyString => false
  | String c' s' => Ascii.eqb c' c || has_char c s'
  end.

(** The cache as the endpoints keep it: no key twice, and no more entries
    than [maxsize]. *)
Definition cache_bounded (c : Cache.t) : Prop :=
  NoDup (Cache.keys c)
  /\ Z.of_nat (List.length (Cache.entries c)) <= Cache.maxsize c.

(** The dict of the statistic, built from [acc] on. *)
Definition collect (rows : PluginStatistics.table)
    (acc : list (string * pyval)) : list (string * pyval) :=
  fold_left
    (fun d sta =>
       dict_set (PluginStatistics.plugin_id sta)
         (PInt (PluginStatistics.count sta)) d)
    rows acc.

(** ** Reads between the insertions into the cache *)

(** A call on the cache: [get(k)] or [set(k, v)], with the reading of the
    timer. *)
Inductive cache_op : Type :=
| CacheGet (k : string) (now : Z)
| CacheSet (k : string) (v : pyval) (now : Z).

Definition cache_step (c : Cache.t) (o : cache_op) : Cache.t :=
  match o with
  | CacheGet k now => snd (Cache.get k now c)
  | CacheSet k v now => Cache.set k v now c
  end.

Definition cache_run (ops : list cache_op) (c : Cache.t) : Cache.t :=
  fold_left cache_step ops c.

Definition op_time (o : cache_op) : Z :=
  match o with
  | CacheGet _ now => now
  | CacheSet _ _ now => now
  end.

(** The insertions among the calls, in order. *)
Definition insertions (ops : list cache_op) : list (string * pyval * Z) :=
  flat_map (fun o => match o with
                     | CacheGet _ _ => []
                     | CacheSet k v now => [(k, v, now)]
                     end) ops.

(** Times that do not go back. *)
Fixpoint times_ordered (ts : list Z) : bool :=
  match ts with
  | a :: (b :: _) as tl => (a <=? b) && times_ordered tl
  | _ => true
  end.

(** C9, as the claim states it: after [capacity + 1] insertions of
    distinct keys, whenever they are made, the cache holds exactly
    [capacity] live entries. *)
Definition overflow_keeps_capacity : Prop :=
  forall (cap ttl : Z) (ins : list (string * pyval * Z))
         (last : string * pyval * Z),
    0 < cap -> 0 < ttl ->
    Z.of_nat (List.length ins) = cap ->
    NoDup (map ikey (ins ++ [last])) ->
    times_ordered (map snd (ins ++ [last])) = true ->
    Z.of_nat
      (List.length
         (Cache.live (snd last)
            (insert_all (ins ++ [last])
               {| Cache.maxsize := cap; Cache.ttl := ttl;
                  Cache.entries := [] |})))
    = cap.

(** ** Requests to the statistic endpoints *)

(** A request to one of the two statistic endpoints, with the database it
    finds and the readings of the timer at its cache calls. *)
Inductive query : Type :=
| PluginQuery (db : Session) (t1 t2 t3 : Z)
| ListingQuery (stype : string) (page count : Z) (db : Session)
    (t1 t2 t3 : Z).

Definition serve (c : Cache.t) (q : query) : result pyval * Cache.t :=
  match q with
  | PluginQuery db t1 t2 t3 => plugin_statistic db t1 t2 t3 c
  | ListingQuery stype page count db t1 t2 t3 =>
      subscribe_statistic stype page count db t1 t2 t3 c
  end.

(** The cache after the requests of a list, one after another. *)
Definition serve_all (qs : list query) (c : Cache.t) : Cache.t :=
  fold_left (fun c q => snd (serve c q)) qs c.

(** A request all of whose cache calls are made before the time [e]. *)
Definition query_before (e : Z) (q : query) : Prop :=
  match q with
  | PluginQuery _ t1 t2 t3 => t1 < e /\ t2 < e /\ t3 < e
  | ListingQuery _ _ _ _ t1 t2 t3 => t1 < e /\ t2 < e /\ t3 < e
  end.

(** * Properties *)

(** ** Lists: lookups after an append and after a map *)

Section FindFacts.

Context {A : Type}.

Lemma find_snoc (f : A -> bool) (l : list A) (x : A) :
  find f (l ++ [x]) =
  match find f l with
  | Some y => Some y
  | None => if f x then Some x else None
  end.
Proof.
  induction l as [|a l IH]; simpl.
  - reflexivity.
  - destruct (f a); [reflexivity | exact IH].
Qed.

(** Mapping with [g] keeps the answer of [find], up to [g], when [g]
    does not change what [f] tests. *)
Lemma find_map_stable (f : A -> bool) (g : A -> A) (l : list A) :
  (forall a, f (g a) = f a) ->
  find f (map g l) = option_map g (find f l).
Proof.
  intros Hfg. induction l as [|a l IH]; simpl.
  - reflexivity.
  - rewrite Hfg. destruct (f a); [reflexivity | exact IH].
Qed.

Lemma find_filter_none (f keep : A -> bool) (l : list A) :
  find f l = None -> find f (filter keep l) = None.
Proof.
  induction l as [|a l IH]; simpl; [reflexivity|].
  destruct (f a) eqn:Hfa; [discriminate|].
  intros H. destruct (keep a); simpl; [rewrite Hfa|]; auto.
Qed.

End FindFacts.

(** ** The plugin counter *)

Module PluginFacts.

Import PluginStatistics.

Lemma plugin_read_create (tb : table) (pid : string) (c : Z) :
  read tb pid = None ->
  read (create pid c tb) pid = Some (mk (next_id tb) pid c).
Proof.
  unfold read, create. intros H. rewrite find_snoc, H. simpl.
  now rewrite String.eqb_refl.
Qed.

Lemma plugin_read_update (tb : table) (pid : string) (r : t) (c : Z) :
  read tb pid = Some r ->
  read (update r c tb) pid = Some (with_count r c).
Proof.
  unfold read, update. intros H.
  rewrite find_map_stable.
  - rewrite H. simpl. now rewrite Z.eqb_refl.
  - intros a. destruct (id a =? id r); reflexivity.
Qed.

Lemma plugin_read_found (tb : table) (pid : string) (r : t) :
  read tb pid = Some r -> plugin_id r = pid /\ In r tb.
Proof.
  unfold read. intros H. apply find_some in H. destruct H as [Hin Heq].
  apply String.eqb_eq in Heq. now split.
Qed.

End PluginFacts.

Lemma plugin_install_ok (pid : string) (db : Session) :
  plugin_install pid db = Ok (success, install_db pid db).
Proof.
  unfold install_db, plugin_install.
  destruct (PluginStatistics.read (plugins db) pid); reflexivity.
Qed.

Lemma stored_count_install (pid : string) (db : Session) :
  stored_count pid (install_db pid db) =
  Some (match stored_count pid db with
        | Some c => c + 1
        | None => 1
        end).
Proof.
  unfold stored_count, install_db, plugin_install.
  destruct (PluginStatistics.read (plugins db) pid) as [r|] eqn:Hr; simpl.
  - now rewrite (PluginFacts.plugin_read_update _ _ _ _ Hr).
  - now rewrite (PluginFacts.plugin_read_create _ _ _ Hr).
Qed.

Lemma stored_count_installs (n : nat) (pid : string) (db : Session) :
  stored_count pid (installs (S n) pid db) =
  Some (match stored_count pid db with
        | Some c => c
        | None => 0
        end + Z.of_nat (S n)).
Proof.
  revert db. induction n as [|n IH]; intros db.
  - simpl installs. rewrite stored_count_install.
    destruct (stored_count pid db); f_equal; lia.
  - change (installs (S (S n)) pid db)
      with (installs (S n) pid (install_db pid db)).
    rewrite IH, stored_count_install.
    destruct (stored_count pid db); f_equal; lia.
Qed.

(** C2 (refuted as stated): the first report of the plugin ["x"] against
    the empty database does not return the count 1; what the caller gets is
    the acknowledgement [{"message": "success"}]. *)
Lemma plugin_install_returns_no_count :
  ~ returns_resulting_count "x" empty_db
  /\ plugin_install "x" empty_db
     = Ok (PDict [("message", PStr "success")],
           {| plugins := [PluginStatistics.mk 1 "x" 1]; subscribes := [] |}).
Proof.
  split; [|reflexivity].
  intros (db' & r & H & _). vm_compute in H. discriminate H.
Qed.

(** C2 (amended): [plugin_install] looks the row up by [pid]; when there is
    none it creates one with count 1, otherwise it stores the count plus
    one; the subscription table is left alone, and the caller gets the
    acknowledgement, not the count.  The count is what a lookup finds
    afterwards: 1 after the first report of an unseen plugin, 2 after the
    second. *)
Theorem plugin_install_bumps (pid : string) (db : Session) :
  exists db',
    plugin_install pid db = Ok (success, db')
    /\ subscribes db' = subscribes db
    /\ match PluginStatistics.read (plugins db) pid with
       | None =>
           plugins db' = plugins db
                         ++ [PluginStatistics.mk
                               (PluginStatistics.next_id (plugins db)) pid 1]
           /\ stored_count pid db' = Some 1
           /\ exists db'',
               plugin_install pid db' = Ok (success, db'')
               /\ stored_count pid db'' = Some 2
       | Some r =>
           plugins db' = PluginStatistics.update r
                           (PluginStatistics.count r + 1) (plugins db)
           /\ PluginStatistics.read (plugins db') pid
              = Some (PluginStatistics.with_count r
                        (PluginStatistics.count r + 1))
       end.
Proof.
  exists (install_db pid db). split; [apply plugin_install_ok|].
  pose proof (stored_count_install pid db) as Hc.
  pose proof (stored_count_install pid (install_db pid db)) as Hc2.
  unfold stored_count in Hc, Hc2 |- *.
  unfold install_db at 1 2 3 4, plugin_install.
  destruct (PluginStatistics.read (plugins db) pid) as [r|] eqn:Hr; simpl.
  - split; [reflexivity|]. split; [reflexivity|].
    apply (PluginFacts.plugin_read_update _ _ _ _ Hr).
  - split; [reflexivity|]. split; [reflexivity|].
    simpl in Hc. split; [exact Hc|].
    exists (install_db pid (install_db pid db)).
    split; [apply plugin_install_ok|].
    rewrite Hc in Hc2. exact Hc2.
Qed.

(** ** Concurrent reports of one plugin *)

Module InterleavingFacts.

Import Interleaving.

(** The two steps of a thread are the call of [plugin_install]. *)
Lemma two_steps_install (pid : string) (db : Session) :
  let (p1, db1) := thread_step pid AtRead db in
  thread_step pid p1 db1 = (Returned success, install_db pid db).
Proof.
  unfold install_db, plugin_install. simpl.
  destruct (PluginStatistics.read (plugins db) pid); reflexivity.
Qed.

Lemma nth_error_middle {A} (pre : list A) (x : A) (post : list A) :
  nth_error (pre ++ x :: post) (List.length pre) = Some x.
Proof. induction pre; simpl; auto. Qed.

Lemma set_nth_middle {A} (pre : list A) (x y : A) (post : list A) :
  set_nth (List.length pre) y (pre ++ x :: post) = pre ++ y :: post.
Proof. induction pre; simpl; [reflexivity | now f_equal]. Qed.

(** The thread after [pre] runs to its end while the others wait. *)
Lemma run_one_call (pid : string) (pre post : list pc) (db : Session) :
  run pid [List.length pre; List.length pre]
    {| threads := pre ++ AtRead :: post; store := db |}
  = {| threads := pre ++ Returned success :: post;
       store := install_db pid db |}.
Proof.
  pose proof (two_steps_install pid db) as H2.
  unfold run, sched_step. simpl fold_left.
  rewrite nth_error_middle.
  destruct (thread_step pid AtRead db) as [p1 db1] eqn:H1.
  cbn [threads store]. rewrite set_nth_middle, nth_error_middle.
  rewrite H2. cbn [threads store]. now rewrite set_nth_middle.
Qed.

Lemma run_app (pid : string) (s1 s2 : list nat) (cfg : config) :
  run pid (s1 ++ s2) cfg = run pid s2 (run pid s1 cfg).
Proof. unfold run. apply fold_left_app. Qed.

Lemma run_serial_from (pid : string) (k : nat) :
  forall (pre : list pc) (db : Session),
    run pid (flat_map (fun i => [i; i]) (seq (List.length pre) k))
      {| threads := pre ++ repeat AtRead k; store := db |}
    = {| threads := pre ++ repeat (Returned success) k;
         store := installs k pid db |}.
Proof.
  induction k as [|k IH]; intros pre db.
  - reflexivity.
  - cbn [seq flat_map repeat].
    rewrite run_app, run_one_call.
    replace (pre ++ Returned success :: repeat AtRead k)
      with ((pre ++ [Returned success]) ++ repeat AtRead k)
      by (now rewrite <- app_assoc).
    replace (S (List.length pre))
      with (List.length (pre ++ [Returned success]))
      by (rewrite length_app; simpl; lia).
    rewrite IH. now rewrite <- app_assoc.
Qed.

Lemma run_serial (pid : string) (N : nat) (db : Session) :
  run pid (serial N) (spawn N db)
  = {| threads := repeat (Returned success) N; store := installs N pid db |}.
Proof. exact (run_serial_from pid N [] db). Qed.

Lemma count_occ_serial_from (i k a : nat) :
  count_occ Nat.eq_dec (flat_map (fun i => [i; i]) (seq a k)) i
  = if (a <=? i)%nat && (i <? a + k)%nat then 2%nat else 0%nat.
Proof.
  revert a. induction k as [|k IH]; intros a.
  - simpl. replace (a + 0)%nat with a by lia.
    destruct (a <=? i)%nat eqn:E1; [|reflexivity].
    destruct (i <? a)%nat eqn:E2; [|reflexivity].
    apply Nat.leb_le in E1. apply Nat.ltb_lt in E2. lia.
  - cbn [seq flat_map app]. cbn [count_occ]. rewrite IH.
    destruct (Nat.eq_dec a i) as [->|Hne].
    + rewrite Nat.leb_refl.
      replace (S i <=? i)%nat with false by (symmetry; apply Nat.leb_gt; lia).
      replace (i <? i + S k)%nat with true
        by (symmetry; apply Nat.ltb_lt; lia).
      reflexivity.
    + destruct (a <=? i)%nat eqn:E1.
      * apply Nat.leb_le in E1.
        replace (S a <=? i)%nat with true by (symmetry; apply Nat.leb_le; lia).
        replace (i <? a + S k)%nat with (i <? S a + k)%nat
          by (f_equal; lia).
        reflexivity.
      * apply Nat.leb_gt in E1.
        replace (S a <=? i)%nat with false
          by (symmetry; apply Nat.leb_gt; lia).
        reflexivity.
Qed.

Lemma serial_complete (N : nat) : complete N (serial N) = true.
Proof.
  unfold complete, serial. apply andb_true_intro. split.
  - apply forallb_forall. intros i Hi. apply in_seq in Hi.
    rewrite count_occ_serial_from.
    replace (0 <=? i)%nat with true by (symmetry; apply Nat.leb_le; lia).
    replace (i <? 0 + N)%nat with true by (symmetry; apply Nat.ltb_lt; lia).
    reflexivity.
  - apply forallb_forall. intros i Hi.
    apply in_flat_map in Hi. destruct Hi as (j & Hj & Hij).
    apply in_seq in Hj. apply Nat.ltb_lt.
    simpl in Hij. destruct Hij as [<-|[<-|[]]]; lia.
Qed.

End InterleavingFacts.

(** C1 (refuted as stated): ten concurrent reports of the plugin ["x"]
    against the empty database can end with the count 2 and not 10.  In the
    schedule [racing 10] one call runs alone and stores 1, the nine others
    all look the row up, each finds the count 1, and each stores 2. *)
Lemma concurrent_reports_lose_updates :
  ~ (forall pid N, In N [1; 10; 100]%nat -> Interleaving.no_lost_update pid N)
  /\ Interleaving.complete 10 (Interleaving.racing 10) = true
  /\ stored_count "x"
       (Interleaving.store
          (Interleaving.run "x" (Interleaving.racing 10)
             (Interleaving.spawn 10 empty_db)))
     = Some 2.
Proof.
  assert (Hc : Interleaving.complete 10 (Interleaving.racing 10) = true)
    by (vm_compute; reflexivity).
  assert (Hr : stored_count "x"
                 (Interleaving.store
                    (Interleaving.run "x" (Interleaving.racing 10)
                       (Interleaving.spawn 10 empty_db))) = Some 2)
    by (vm_compute; reflexivity).
  split; [|split; assumption].
  intros H.
  specialize (H "x" 10%nat (or_intror (or_introl eq_refl))
                (Interleaving.racing 10) Hc).
  rewrite Hr in H. discriminate H.
Qed.

(** C1 (amended): for every plugin and every [N >= 1], so for 1, 10 and
    100, [N] reports that run one after another, each from its lookup to
    its write before the next one starts, leave exactly the count [N]
    behind.  Nothing is claimed for calls whose steps interleave. *)
Theorem serial_reports_count (pid : string) (N : nat) :
  (1 <= N)%nat ->
  Interleaving.complete N (Interleaving.serial N) = true
  /\ Interleaving.store
       (Interleaving.run pid (Interleaving.serial N)
          (Interleaving.spawn N empty_db))
     = installs N pid empty_db
  /\ stored_count pid
       (Interleaving.store
          (Interleaving.run pid (Interleaving.serial N)
             (Interleaving.spawn N empty_db)))
     = Some (Z.of_nat N).
Proof.
  intros HN. split; [apply InterleavingFacts.serial_complete|].
  rewrite InterleavingFacts.run_serial. cbn [Interleaving.store].
  split; [reflexivity|].
  destruct N as [|n]; [lia|].
  rewrite stored_count_installs. reflexivity.
Qed.

Lemma serial_reports_count_witness :
  (1 <= 10)%nat
  /\ stored_count "x"
       (Interleaving.store
          (Interleaving.run "x" (Interleaving.serial 10)
             (Interleaving.spawn 10 empty_db)))
     = Some 10.
Proof.
  split; [lia|].
  exact (proj2 (proj2 (serial_reports_count "x" 10 ltac:(lia)))).
Defined.

(** ** The subscription counter *)

Module SubscribeFacts.

Import SubscribeStatistics.

Lemma media_id_eqb_eq (a b : media_id) : media_id_eqb a b = true <-> a = b.
Proof.
  destruct a as [n|s], b as [m|u]; simpl; split; intros H;
    try discriminate; try congruence.
  - apply Z.eqb_eq in H. now subst.
  - inversion H. apply Z.eqb_refl.
  - apply String.eqb_eq in H. now subst.
  - inversion H. apply String.eqb_refl.
Qed.

Lemma opt_eqb_eq {A} (eqb : A -> A -> bool) (a b : option A) :
  (forall x y, eqb x y = true <-> x = y) ->
  opt_eqb eqb a b = true <-> a = b.
Proof.
  intros Heq. destruct a as [x|], b as [y|]; simpl; split; intros H;
    try discriminate; try reflexivity.
  - apply Heq in H. now subst.
  - inversion H. now apply Heq.
Qed.

(** A row answers to a lookup exactly when it has that identity. *)
Lemma matches_eq (mid : option media_id) (s : option Z) (r : t) :
  matches mid s r = true <-> mid_of (attrs r) = mid /\ season (attrs r) = s.
Proof.
  unfold matches. rewrite andb_true_iff.
  rewrite (opt_eqb_eq media_id_eqb) by apply media_id_eqb_eq.
  rewrite (opt_eqb_eq Z.eqb) by apply Z.eqb_eq.
  reflexivity.
Qed.

Lemma matches_own (r : t) :
  matches (mid_of (attrs r)) (season (attrs r)) r = true.
Proof. apply matches_eq. now split. Qed.

Lemma read_found (tb : table) mid s (r : t) :
  read tb mid s = Some r ->
  In r tb /\ mid_of (attrs r) = mid /\ season (attrs r) = s.
Proof.
  unfold read. intros H. apply find_some in H. destruct H as [Hin Hm].
  apply matches_eq in Hm. now split.
Qed.

Lemma read_create (tb : table) (p : SubscribeStatistic) (c : Z) :
  read tb (mid_of p) (season p) = None ->
  read (create p c tb) (mid_of p) (season p)
  = Some (mk (next_id tb) p None c).
Proof.
  unfold read, create. intros H. rewrite find_snoc, H.
  pose proof (matches_own (mk (next_id tb) p None c)) as Hm.
  cbn [attrs] in Hm. now rewrite Hm.
Qed.

Lemma read_update (tb : table) mid s (r : t) (c : Z) :
  read tb mid s = Some r ->
  read (update r c tb) mid s = Some (with_count r c).
Proof.
  unfold read, update. intros H. rewrite find_map_stable.
  - rewrite H. simpl. now rewrite Z.eqb_refl.
  - intros a. destruct (id a =? id r); reflexivity.
Qed.

Lemma read_delete (tb : table) mid s (r : t) :
  identities_unique tb ->
  read tb mid s = Some r ->
  read (delete (id r) tb) mid s = None.
Proof.
  unfold read, delete. induction tb as [|a tl IH]; simpl; [discriminate|].
  intros [Ha Htl].
  destruct (matches mid s a) eqn:Hm.
  - intros [= ->]. rewrite Z.eqb_refl. simpl.
    apply matches_eq in Hm. destruct Hm as [<- <-].
    now apply find_filter_none.
  - intros H. destruct (negb (id a =? id r)); simpl; [rewrite Hm|]; auto.
Qed.

(** The key of a new row is above every key in the table. *)
Lemma id_below_next (tb : table) (r : t) : In r tb -> id r < next_id tb.
Proof.
  unfold next_id. induction tb as [|a tl IH]; cbn [In map fold_right];
    [tauto|].
  intros [->|Hin]; [lia|]. specialize (IH Hin). lia.
Qed.

(** Deleting the row just created gives the table back. *)
Lemma delete_create (tb : table) (p : SubscribeStatistic) (c : Z) :
  delete (next_id tb) (create p c tb) = tb.
Proof.
  unfold delete, create. rewrite filter_app. simpl.
  rewrite Z.eqb_refl. simpl. rewrite app_nil_r.
  apply forallb_filter_id. apply forallb_forall. intros r Hr.
  apply id_below_next in Hr. apply negb_true_iff, Z.eqb_neq. lia.
Qed.

(** *** The counters stay positive *)

Lemma counts_positive_create (tb : table) (p : SubscribeStatistic) :
  counts_positive tb -> counts_positive (create p 1 tb).
Proof.
  unfold counts_positive, create. intros H. apply Forall_app. split; auto.
  constructor; [simpl; lia | constructor].
Qed.

Lemma counts_positive_update (tb : table) (r : t) (c : Z) :
  1 <= c -> counts_positive tb -> counts_positive (update r c tb).
Proof.
  unfold counts_positive, update. intros Hc H.
  apply Forall_map. eapply Forall_impl; [|exact H].
  intros a Ha. cbv beta in Ha |- *. destruct (id a =? id r); simpl; lia.
Qed.

Lemma counts_positive_delete (tb : table) (sid : Z) :
  counts_positive tb -> counts_positive (delete sid tb).
Proof.
  unfold counts_positive, delete. intros H.
  apply Forall_forall. intros r Hr. apply filter_In in Hr.
  rewrite Forall_forall in H. now apply H.
Qed.

Lemma counts_positive_read (tb : table) mid s (r : t) :
  counts_positive tb -> read tb mid s = Some r -> 1 <= count r.
Proof.
  intros H Hr. apply read_found in Hr. destruct Hr as [Hin _].
  unfold counts_positive in H. rewrite Forall_forall in H. now apply H.
Qed.

End SubscribeFacts.

(** ** Primary keys and identities stay unique *)

Module TableInvariants.

Import SubscribeStatistics.

Lemma ids_increasing_weaken (tb : table) (lo lo' : Z) :
  lo' <= lo -> ids_increasing lo tb -> ids_increasing lo' tb.
Proof. destruct tb; simpl; [tauto|]. intros Hle [H1 H2]. split; [lia|auto]. Qed.

Lemma ids_above (tb : table) :
  forall lo, ids_increasing lo tb -> Forall (fun x => lo < id x) tb.
Proof.
  induction tb as [|a tl IH]; intros lo; simpl; [constructor|].
  intros [H1 H2]. constructor; [exact H1|].
  apply IH. eapply ids_increasing_weaken; [|exact H2]. lia.
Qed.

Lemma ids_increasing_snoc (tb : table) (x : t) :
  forall lo, ids_increasing lo tb -> lo < id x ->
             (forall r, In r tb -> id r < id x) ->
             ids_increasing lo (tb ++ [x]).
Proof.
  induction tb as [|a tl IH]; intros lo; simpl.
  - tauto.
  - intros [H1 H2] Hlo Hall. split; [exact H1|].
    apply IH; auto.
Qed.

Lemma ids_increasing_create (tb : table) (p : SubscribeStatistic) (c : Z) :
  ids_increasing 0 tb -> ids_increasing 0 (create p c tb).
Proof.
  intros H. unfold create. apply ids_increasing_snoc; auto.
  - unfold next_id. cbn [id].
    assert (0 <= fold_right Z.max 0 (map id tb)); [|lia].
    clear H. induction tb; cbn [map fold_right]; lia.
  - intros r Hr. now apply SubscribeFacts.id_below_next.
Qed.

Lemma ids_increasing_update (tb : table) (r : t) (c : Z) :
  forall lo, ids_increasing lo tb -> ids_increasing lo (update r c tb).
Proof.
  unfold update. induction tb as [|a tl IH]; intros lo; simpl; [tauto|].
  intros [H1 H2].
  assert (E : id (if id a =? id r then with_count a c else a) = id a)
    by (destruct (id a =? id r); reflexivity).
  rewrite E. split; [exact H1 | now apply IH].
Qed.

Lemma ids_increasing_filter (keep : t -> bool) (tb : table) :
  forall lo, ids_increasing lo tb -> ids_increasing lo (filter keep tb).
Proof.
  induction tb as [|a tl IH]; intros lo; simpl; [tauto|].
  intros [H1 H2]. destruct (keep a); simpl.
  - split; [exact H1 | now apply IH].
  - apply IH. eapply ids_increasing_weaken; [|exact H2]. lia.
Qed.

Lemma ids_increasing_delete (tb : table) (sid : Z) :
  forall lo, ids_increasing lo tb -> ids_increasing lo (delete sid tb).
Proof. intros lo. apply ids_increasing_filter. Qed.

(** In a table with growing keys, the rows before [r] have smaller keys
    and the rows after it larger ones. *)
Lemma ids_increasing_split (pre post : table) (r : t) :
  forall lo, ids_increasing lo (pre ++ r :: post) ->
    Forall (fun x => id x < id r) pre /\ Forall (fun x => id r < id x) post.
Proof.
  induction pre as [|a pre IH]; intros lo; simpl.
  - intros [_ H]. split; [constructor | now apply ids_above].
  - intros [_ H]. destruct (IH _ H) as [Hpre Hpost]. split; [|exact Hpost].
    constructor; [|exact Hpre].
    apply ids_above in H. rewrite Forall_forall in H.
    apply (H r). apply in_elt.
Qed.

Lemma map_unchanged {A} (g : A -> A) (l : Datatypes.list A) :
  Forall (fun x => g x = x) l -> map g l = l.
Proof. induction 1; simpl; congruence. Qed.

(** With unique keys, [update] rewrites the one row it is called on. *)
Lemma update_exact (pre post : table) (r : t) (c : Z) (lo : Z) :
  ids_increasing lo (pre ++ r :: post) ->
  update r c (pre ++ r :: post) = pre ++ with_count r c :: post.
Proof.
  intros H. apply ids_increasing_split in H. destruct H as [Hpre Hpost].
  unfold update. rewrite map_app. cbn [map]. rewrite Z.eqb_refl.
  f_equal; [|f_equal]; apply map_unchanged.
  - eapply Forall_impl; [|exact Hpre]. intros a Ha. cbv beta in Ha |- *.
    replace (id a =? id r) with false by (symmetry; apply Z.eqb_neq; lia).
    reflexivity.
  - eapply Forall_impl; [|exact Hpost]. intros a Ha. cbv beta in Ha |- *.
    replace (id a =? id r) with false by (symmetry; apply Z.eqb_neq; lia).
    reflexivity.
Qed.

Lemma find_split {A} (f : A -> bool) (l : Datatypes.list A) (r : A) :
  find f l = Some r -> exists pre post, l = pre ++ r :: post.
Proof.
  induction l as [|a l IH]; simpl; [discriminate|].
  destruct (f a).
  - intros [= ->]. now exists [], l.
  - intros H. destruct (IH H) as (pre & post & ->).
    now exists (a :: pre), post.
Qed.

Lemma identities_unique_snoc (tb : table) (x : t) :
  identities_unique tb ->
  read tb (mid_of (attrs x)) (season (attrs x)) = None ->
  identities_unique (tb ++ [x]).
Proof.
  induction tb as [|a tl IH]; simpl.
  - intros _ _. split; [reflexivity | exact I].
  - intros [Ha Htl] Hp. unfold read in Hp. simpl in Hp.
    destruct (matches (mid_of (attrs x)) (season (attrs x)) a) eqn:Hm;
      [discriminate|].
    split; [|now apply IH].
    unfold read in Ha |- *. rewrite find_snoc, Ha.
    destruct (matches (mid_of (attrs a)) (season (attrs a)) x) eqn:Hx;
      [|reflexivity].
    apply SubscribeFacts.matches_eq in Hx.
    destruct Hx as [E1 E2]. rewrite E1, E2 in Hm.
    now rewrite SubscribeFacts.matches_own in Hm.
Qed.

Lemma identities_unique_create (tb : table) (p : SubscribeStatistic) (c : Z) :
  identities_unique tb ->
  read tb (mid_of p) (season p) = None ->
  identities_unique (create p c tb).
Proof. intros H Hp. unfold create. now apply identities_unique_snoc. Qed.

Lemma identities_unique_update (tb : table) (r : t) (c : Z) :
  identities_unique tb -> identities_unique (update r c tb).
Proof.
  unfold update. induction tb as [|a tl IH]; simpl; [tauto|].
  intros [Ha Htl]. split; [|now apply IH].
  assert (E : attrs (if id a =? id r then with_count a c else a) = attrs a)
    by (destruct (id a =? id r); reflexivity).
  rewrite E. unfold read in Ha |- *. rewrite find_map_stable.
  - now rewrite Ha.
  - intros x. destruct (id x =? id r); reflexivity.
Qed.

Lemma identities_unique_delete (tb : table) (sid : Z) :
  identities_unique tb -> identities_unique (delete sid tb).
Proof.
  unfold delete. induction tb as [|a tl IH]; simpl; [tauto|].
  intros [Ha Htl]. destruct (negb (id a =? sid)); simpl; [|now apply IH].
  split; [|now apply IH]. now apply find_filter_none.
Qed.

Lemma well_formed_empty : well_formed empty_db.
Proof. split; exact I. Qed.

(** Every report leaves a well-formed database well-formed. *)
Lemma well_formed_apply_op (o : op) (db : Session) :
  well_formed db ->
  exists v db', apply_op o db = Ok (v, db') /\ well_formed db'.
Proof.
  intros [Hid Hun]. destruct o as [p|p]; simpl;
    [unfold subscribe_add | unfold subscribe_done];
    destruct (read (subscribes db) (mid_of p) (season p)) as [r|] eqn:Hr.
  - eexists _, _. split; [reflexivity|]. split; simpl.
    + now apply ids_increasing_update.
    + now apply identities_unique_update.
  - eexists _, _. split; [reflexivity|]. split; simpl.
    + now apply ids_increasing_create.
    + now apply identities_unique_create.
  - destruct (count r <=? 1); eexists _, _; (split; [reflexivity|]);
      split; simpl.
    + now apply ids_increasing_delete.
    + now apply identities_unique_delete.
    + now apply ids_increasing_update.
    + now apply identities_unique_update.
  - eexists _, _. split; [reflexivity|]. now split.
Qed.

(** So does every sequence of reports, which always runs to its end. *)
Lemma well_formed_apply_ops (ops : Datatypes.list op) :
  forall db, well_formed db ->
    exists db', apply_ops ops db = Ok db' /\ well_formed db'.
Proof.
  induction ops as [|o rest IH]; intros db Hwf.
  - now exists db.
  - destruct (well_formed_apply_op o db Hwf) as (v & db1 & Hrun & Hwf1).
    destruct (IH db1 Hwf1) as (db' & Hrest & Hwf').
    exists db'. split; [|exact Hwf'].
    simpl. rewrite Hrun. exact Hrest.
Qed.

End TableInvariants.

(** ** Reports without a catalog id *)

(** C3 (refuted as stated): a report with no field set is not rejected.
    Against the empty database [subscribe_add] returns the acknowledgement
    and stores a row with count 1 whose catalog ids are all [None]. *)
Lemma report_without_id_is_accepted :
  ~ rejects_missing_identity
  /\ subscribe_add no_fields empty_db
     = Ok (success,
           {| plugins := [];
              subscribes := [SubscribeStatistics.mk 1 no_fields None 1] |}).
Proof.
  split; [|reflexivity].
  intros H. specialize (H no_fields empty_db eq_refl eq_refl).
  vm_compute in H. discriminate H.
Qed.

(** C3 (amended): for a report with neither [tmdbid] nor [doubanid] the
    media id resolves to [None] and no exception is raised: [subscribe_add]
    looks the report up under the identity [(None, season)] and counts it
    there, creating the row with count 1 or adding one to the row found. *)
Theorem report_without_id_counts_under_null_key
    (subscribe : SubscribeStatistic) (db : Session) :
  tmdbid subscribe = None -> doubanid subscribe = None ->
  mid_of subscribe = None
  /\ exists db',
      subscribe_add subscribe db = Ok (success, db')
      /\ match SubscribeStatistics.read (subscribes db) None
                 (season subscribe) with
         | None =>
             subscribes db'
             = subscribes db
               ++ [SubscribeStatistics.mk
                     (SubscribeStatistics.next_id (subscribes db))
                     subscribe None 1]
         | Some r =>
             subscribes db'
             = SubscribeStatistics.update r
                 (SubscribeStatistics.count r + 1) (subscribes db)
             /\ SubscribeStatistics.read (subscribes db') None
                  (season subscribe)
                = Some (SubscribeStatistics.with_count r
                          (SubscribeStatistics.count r + 1))
         end.
Proof.
  intros Ht Hd.
  assert (Hmid : mid_of subscribe = None)
    by (unfold mid_of; now rewrite Ht, Hd).
  split; [exact Hmid|].
  unfold subscribe_add. rewrite Hmid.
  destruct (SubscribeStatistics.read (subscribes db) None (season subscribe))
    as [r|] eqn:Hr.
  - eexists. split; [reflexivity|]. simpl. split; [reflexivity|].
    now apply SubscribeFacts.read_update.
  - eexists. split; [reflexivity|]. reflexivity.
Qed.

Lemma report_without_id_counts_under_null_key_witness :
  exists db',
    subscribe_add no_fields empty_db = Ok (success, db')
    /\ subscribes db' = [SubscribeStatistics.mk 1 no_fields None 1].
Proof.
  destruct (report_without_id_counts_under_null_key no_fields empty_db
              eq_refl eq_refl) as (_ & db' & Hrun & Hdb).
  exists db'. split; [exact Hrun | exact Hdb].
Defined.

(** ** Completion reports *)

(** C4 (refuted as stated): [subscribe_done] does not return the deleted
    flag.  On the row of [title_603] with count 1 it deletes the row and
    returns the acknowledgement, not [True]. *)
Lemma subscribe_done_returns_no_flag :
  ~ returns_deleted_flag
  /\ deleted_flag title_603 db_603 = true
  /\ subscribe_done title_603 db_603 = Ok (success, empty_db).
Proof.
  split; [|split; reflexivity].
  intros H. destruct (H title_603 db_603) as (db' & Hrun).
  vm_compute in Hrun. discriminate Hrun.
Qed.

(** C4 (amended): [subscribe_done] always returns the acknowledgement and
    no flag.  Its effect is as claimed: on an absent identity the database
    is unchanged; on a row with count at most 1 the row is deleted, and no
    row answers to the identity afterwards; on a row with a larger count
    the count less one is stored.  A report then a completion of an absent
    identity gives the database back, and one more completion changes
    nothing. *)
Theorem subscribe_done_effect (subscribe : SubscribeStatistic) (db : Session) :
  identities_unique (subscribes db) ->
  (exists db',
      subscribe_done subscribe db = Ok (success, db')
      /\ plugins db' = plugins db
      /\ match SubscribeStatistics.read (subscribes db)
                 (mid_of subscribe) (season subscribe) with
         | None => db' = db
         | Some r =>
             if SubscribeStatistics.count r <=? 1 then
               subscribes db'
               = SubscribeStatistics.delete (SubscribeStatistics.id r)
                   (subscribes db)
               /\ SubscribeStatistics.read (subscribes db')
                    (mid_of subscribe) (season subscribe) = None
             else
               subscribes db'
               = SubscribeStatistics.update r
                   (SubscribeStatistics.count r - 1) (subscribes db)
               /\ SubscribeStatistics.read (subscribes db')
                    (mid_of subscribe) (season subscribe)
                  = Some (SubscribeStatistics.with_count r
                            (SubscribeStatistics.count r - 1))
         end)
  /\ (SubscribeStatistics.read (subscribes db)
        (mid_of subscribe) (season subscribe) = None ->
      exists db1,
        subscribe_add subscribe db = Ok (success, db1)
        /\ subscribe_done subscribe db1 = Ok (success, db)
        /\ subscribe_done subscribe db = Ok (success, db)).
Proof.
  intros Hun. split.
  - unfold subscribe_done.
    destruct (SubscribeStatistics.read (subscribes db)
                (mid_of subscribe) (season subscribe)) as [r|] eqn:Hr.
    + destruct (SubscribeStatistics.count r <=? 1);
        (eexists; split; [reflexivity|]; split; [reflexivity|]);
        simpl; (split; [reflexivity|]).
      * now apply SubscribeFacts.read_delete.
      * now apply SubscribeFacts.read_update.
    + exists db. repeat split.
  - intros Habs. eexists. split.
    + unfold subscribe_add. rewrite Habs. reflexivity.
    + split.
      * unfold subscribe_done. cbn [subscribes set_subscribes].
        rewrite (SubscribeFacts.read_create _ _ _ Habs).
        cbn [SubscribeStatistics.count SubscribeStatistics.id].
        replace (1 <=? 1) with true by reflexivity.
        rewrite SubscribeFacts.delete_create.
        destruct db; reflexivity.
      * unfold subscribe_done. now rewrite Habs.
Qed.

Lemma subscribe_done_effect_witness :
  identities_unique (subscribes db_603)
  /\ exists db',
      subscribe_done title_603 db_603 = Ok (success, db')
      /\ plugins db' = plugins db_603.
Proof.
  assert (H : identities_unique (subscribes db_603))
    by (simpl; split; [reflexivity | exact I]).
  split; [exact H|].
  destruct (subscribe_done_effect title_603 db_603 H)
    as ((db' & Hrun & Hp & _) & _).
  exists db'. split; [exact Hrun | exact Hp].
Defined.

(** ** The counters never reach zero *)

Lemma counts_positive_apply_op (o : op) (db : Session) :
  counts_positive (subscribes db) ->
  exists v db', apply_op o db = Ok (v, db') /\ counts_positive (subscribes db').
Proof.
  intros Hpos. destruct o as [p|p]; simpl;
    [unfold subscribe_add | unfold subscribe_done];
    destruct (SubscribeStatistics.read (subscribes db) (mid_of p) (season p))
      as [r|] eqn:Hr.
  - pose proof (SubscribeFacts.counts_positive_read _ _ _ _ Hpos Hr) as Hc.
    eexists _, _. split; [reflexivity|]. simpl.
    apply SubscribeFacts.counts_positive_update; [lia | exact Hpos].
  - eexists _, _. split; [reflexivity|]. simpl.
    now apply SubscribeFacts.counts_positive_create.
  - destruct (SubscribeStatistics.count r <=? 1) eqn:Hle;
      eexists _, _; (split; [reflexivity|]); simpl.
    + now apply SubscribeFacts.counts_positive_delete.
    + apply Z.leb_gt in Hle.
      apply SubscribeFacts.counts_positive_update; [lia | exact Hpos].
  - eexists _, _. split; [reflexivity | exact Hpos].
Qed.

(** C5: every sequence of [subscribe_add] and [subscribe_done] reports runs
    to its end, and from a table whose counters are all at least 1 (the
    empty one for a start) it leaves a table whose counters are all at
    least 1: whatever row a lookup finds afterwards has a count of 1 or
    more, and none is stored with a count of 0 or less. *)
Theorem counters_stay_positive (ops : list op) (db : Session) :
  counts_positive (subscribes db) ->
  exists db',
    apply_ops ops db = Ok db'
    /\ counts_positive (subscribes db')
    /\ forall mid s r,
        SubscribeStatistics.read (subscribes db') mid s = Some r ->
        1 <= SubscribeStatistics.count r.
Proof.
  revert db. induction ops as [|o rest IH]; intros db Hpos.
  - exists db. split; [reflexivity|]. split; [exact Hpos|].
    intros mid s r Hr.
    exact (SubscribeFacts.counts_positive_read _ _ _ _ Hpos Hr).
  - destruct (counts_positive_apply_op o db Hpos) as (v & db1 & Hrun & Hpos1).
    destruct (IH db1 Hpos1) as (db' & Hrest & Hpos' & Hread).
    exists db'. split; [|split; assumption].
    simpl. rewrite Hrun. simpl. exact Hrest.
Qed.

Lemma counters_stay_positive_witness :
  counts_positive (subscribes empty_db)
  /\ exists db',
      apply_ops [Add title_603; Add title_603; Done title_603;
                 Done title_603; Done title_603; Add title_603] empty_db
      = Ok db'
      /\ counts_positive (subscribes db').
Proof.
  assert (H : counts_positive (subscribes empty_db)) by constructor.
  split; [exact H|].
  destruct (counters_stay_positive
              [Add title_603; Add title_603; Done title_603;
               Done title_603; Done title_603; Add title_603] empty_db H)
    as (db' & Hrun & Hpos & _).
  exists db'. split; [exact Hrun | exact Hpos].
Defined.

(** ** A repeated report changes the count and nothing else *)

(** C6: when the identity of the report already has a row, [subscribe_add]
    rewrites that one row and leaves the rows before and after it, and the
    plugin table, as they are; the new row has the old primary key and the
    old descriptive fields, those of the first report and not those of
    this one, and the old count plus one. *)
Theorem subscribe_add_keeps_attributes
    (subscribe : SubscribeStatistic) (db : Session) (r : SubscribeStatistics.t) :
  ids_increasing 0 (subscribes db) ->
  SubscribeStatistics.read (subscribes db) (mid_of subscribe) (season subscribe)
  = Some r ->
  exists pre post,
    subscribes db = pre ++ r :: post
    /\ subscribe_add subscribe db
       = Ok (success,
             {| plugins := plugins db;
                subscribes :=
                  pre
                  ++ {| SubscribeStatistics.id := SubscribeStatistics.id r;
                        SubscribeStatistics.attrs := SubscribeStatistics.attrs r;
                        SubscribeStatistics.bangumiid :=
                          SubscribeStatistics.bangumiid r;
                        SubscribeStatistics.count :=
                          SubscribeStatistics.count r + 1 |}
                  :: post |}).
Proof.
  intros Hid Hr.
  destruct (TableInvariants.find_split _ _ _ Hr) as (pre & post & Hsplit).
  exists pre, post. split; [exact Hsplit|].
  unfold subscribe_add. rewrite Hr. unfold set_subscribes.
  rewrite Hsplit in Hid |- *.
  now rewrite (TableInvariants.update_exact pre post r _ 0 Hid).
Qed.

Lemma subscribe_add_keeps_attributes_witness :
  ids_increasing 0 (subscribes db_603)
  /\ subscribe_add title_603_renamed db_603
     = Ok (success,
           {| plugins := [];
              subscribes := [SubscribeStatistics.mk 1 title_603 None 2] |}).
Proof.
  assert (Hid : ids_increasing 0 (subscribes db_603))
    by (simpl; split; [lia | exact I]).
  split; [exact Hid|].
  destruct (subscribe_add_keeps_attributes title_603_renamed db_603
              (SubscribeStatistics.mk 1 title_603 None 1) Hid eq_refl)
    as (pre & post & Hsplit & Hrun).
  destruct pre as [|a pre].
  - injection Hsplit as <-. exact Hrun.
  - destruct pre; discriminate Hsplit.
Defined.

(** ** The cache: lookups after [set] *)

Module CacheFacts.

Import Cache.

Lemma lookup_remove (k : string) (es : list entry) :
  lookup k (remove k es) = None.
Proof.
  unfold lookup, remove. induction es as [|a es IH]; simpl; [reflexivity|].
  destruct (String.eqb (fst a) k) eqn:E; simpl; [exact IH|].
  now rewrite E.
Qed.

Lemma lookup_snoc (k : string) (x : pyval * option Z) (es : list entry) :
  lookup k es = None -> lookup k (es ++ [(k, x)]) = Some x.
Proof.
  unfold lookup. intros H. rewrite find_snoc.
  destruct (find (fun e => String.eqb (fst e) k) es); [discriminate|].
  simpl. now rewrite String.eqb_refl.
Qed.

(** Right after [set], the key holds the value with a fresh expiry. *)
Lemma set_lookup (k : string) (v : pyval) (now : Z) (c : t) :
  lookup k (entries (set k v now c))
  = Some (v, if 0 <? ttl c then Some (now + ttl c) else None).
Proof.
  unfold set. destruct (get_live k now c) as [o c1].
  cbn [entries with_entries]. apply lookup_snoc, lookup_remove.
Qed.

Lemma get_live_ttl (k : string) (now : Z) (c : t) :
  ttl (snd (get_live k now c)) = ttl c
  /\ maxsize (snd (get_live k now c)) = maxsize c.
Proof.
  unfold get_live. destruct (lookup k (entries c)) as [[v e]|]; simpl; auto.
  destruct (expired_at now e); simpl; auto.
Qed.

Lemma get_ttl (k : string) (now : Z) (c : t) :
  ttl (snd (get k now c)) = ttl c.
Proof.
  unfold get. pose proof (get_live_ttl k now c) as [H _].
  destruct (get_live k now c); exact H.
Qed.

Lemma set_ttl (k : string) (v : pyval) (now : Z) (c : t) :
  ttl (set k v now c) = ttl c.
Proof.
  unfold set. pose proof (get_live_ttl k now c) as [H _].
  destruct (get_live k now c) as [[x|] c1]; simpl in *; exact H.
Qed.

(** A [get] of a live entry returns its value and leaves the cache. *)
Lemma get_hit (k : string) (now : Z) (c : t) (v : pyval) (e : option Z) :
  lookup k (entries c) = Some (v, e) ->
  expired_at now e = false ->
  get k now c = (v, c).
Proof. unfold get, get_live. intros -> ->. reflexivity. Qed.

(** A [get] of a stale or missing entry returns [None]. *)
Lemma get_stale (k : string) (now : Z) (c : t) (v : pyval) (e : option Z) :
  lookup k (entries c) = Some (v, e) ->
  expired_at now e = true ->
  get k now c = (PNone, with_entries c (remove k (entries c))).
Proof. unfold get, get_live. intros -> ->. reflexivity. Qed.

Lemma get_absent (k : string) (now : Z) (c : t) :
  lookup k (entries c) = None -> get k now c = (PNone, c).
Proof. unfold get, get_live. intros ->. reflexivity. Qed.

(** The value just stored is what the next [get] returns, as long as it
    comes before the fresh expiry time. *)
Lemma get_after_set (k : string) (v : pyval) (t2 t3 : Z) (c : t) :
  t3 < t2 + ttl c ->
  get k t3 (set k v t2 c) = (v, set k v t2 c).
Proof.
  intros Ht. eapply get_hit; [apply set_lookup|].
  destruct (0 <? ttl c); simpl; [|reflexivity].
  apply Z.leb_gt. lia.
Qed.

End CacheFacts.

(** ** The read-through pattern *)

Lemma plugin_statistic_read_through (db : Session) (t1 t2 t3 : Z) (c : Cache.t) :
  plugin_statistic db t1 t2 t3 c
  = forget_state (read_through "plugin" plugin_loader t1 t2 t3 db c).
Proof.
  unfold plugin_statistic, read_through, plugin_loader, forget_state.
  destruct (Cache.get "plugin" t1 c) as [v c1].
  destruct (negb (truthy v)).
  - destruct (Cache.get "plugin" t3 _); reflexivity.
  - destruct (Cache.get "plugin" t3 c1); reflexivity.
Qed.

Lemma subscribe_statistic_read_through
    (stype : string) (page count : Z) (db : Session) (t1 t2 t3 : Z)
    (c : Cache.t) :
  subscribe_statistic stype page count db t1 t2 t3 c
  = forget_state
      (read_through (cache_key stype page count)
         (subscribe_loader stype page count) t1 t2 t3 db c).
Proof.
  unfold subscribe_statistic, read_through, subscribe_loader, forget_state.
  destruct (Cache.get (cache_key stype page count) t1 c) as [v c1].
  destruct (negb (truthy v)).
  - destruct (SubscribeStatistics.list (subscribes db) stype page count).
    + destruct (Cache.get _ t3 _); reflexivity.
    + reflexivity.
  - destruct (Cache.get _ t3 c1); reflexivity.
Qed.

(** A request that finds a live value that passes the truth test returns
    it; the loader and the cache are left alone. *)
Lemma read_through_hit {S : Type} (key : string)
    (loader : S -> result pyval * S) (t1 t2 t3 : Z) (s : S) (c : Cache.t)
    (v : pyval) (e : option Z) :
  Cache.lookup key (Cache.entries c) = Some (v, e) ->
  truthy v = true ->
  Cache.expired_at t1 e = false ->
  Cache.expired_at t3 e = false ->
  read_through key loader t1 t2 t3 s c = (Ok v, s, c).
Proof.
  intros Hl Hv H1 H3. unfold read_through.
  rewrite (CacheFacts.get_hit _ _ _ _ _ Hl H1), Hv. simpl.
  now rewrite (CacheFacts.get_hit _ _ _ _ _ Hl H3).
Qed.

(** A request whose first [get] returns nothing that passes the truth test
    runs the loader. *)
Lemma read_through_miss {S : Type} (key : string)
    (loader : S -> result pyval * S) (t1 t2 t3 : Z) (s : S) (c : Cache.t) :
  truthy (fst (Cache.get key t1 c)) = false ->
  t3 < t2 + Cache.ttl c ->
  read_through key loader t1 t2 t3 s c = miss_outcome key loader t1 t2 s c.
Proof.
  intros Hv Ht. unfold read_through, miss_outcome.
  pose proof (CacheFacts.get_ttl key t1 c) as Httl.
  destruct (Cache.get key t1 c) as [v c1]. simpl in Hv, Httl |- *.
  rewrite Hv. simpl.
  destruct (loader s) as [[x|err] s']; [|reflexivity].
  rewrite CacheFacts.get_after_set by (rewrite Httl; exact Ht).
  reflexivity.
Qed.

Lemma get_falsy (key : string) (t1 : Z) (c : Cache.t) (v : pyval)
    (e : option Z) :
  Cache.lookup key (Cache.entries c) = Some (v, e) ->
  truthy v = false ->
  truthy (fst (Cache.get key t1 c)) = false.
Proof.
  intros Hl Hv. destruct (Cache.expired_at t1 e) eqn:He.
  - now rewrite (CacheFacts.get_stale _ _ _ _ _ Hl He).
  - now rewrite (CacheFacts.get_hit _ _ _ _ _ Hl He).
Qed.

(** ** Time to live *)

(** C8 (refuted as stated): the empty dict stored under ["plugin"] at time
    0 is not served at time 1, long before its expiry at 1800: the loader
    is called (its call count goes from 0 to 1) and its value is returned
    and stored in place of the empty dict. *)
Lemma empty_entry_is_reloaded_before_expiry :
  ~ serves_live_entries
  /\ read_through "plugin" (counting_loader (PDict [("x", PInt 1)])) 1 1 1 0%nat
       (Cache.set "plugin" (PDict []) 0 StatisticCache)
     = (Ok (PDict [("x", PInt 1)]), 1%nat,
        {| Cache.maxsize := 100; Cache.ttl := 1800;
           Cache.entries :=
             [("plugin", (PDict [("x", PInt 1)], Some 1801))] |}).
Proof.
  split; [|reflexivity].
  intros H.
  specialize (H "plugin" (PDict []) (PDict [("x", PInt 1)]) 0 1 0%nat
                StatisticCache).
  simpl Cache.ttl in H. specialize (H ltac:(lia) ltac:(lia)).
  vm_compute in H. discriminate H.
Qed.

(** C8 (amended): in a cache with a positive TTL, a request made before the
    expiry time of the entry (its load time plus the TTL) returns the
    stored value unchanged, with the loader's state and the cache
    untouched, provided the stored value passes Python's truth test (it is
    not an empty dict or list).  A request made at or after the expiry
    time, or when the key has no entry, runs the loader, stores its value
    under the key with the expiry time [t2 + ttl] and returns it; an
    exception of the loader is passed on. *)
Theorem read_through_ttl_boundary {S : Type} (key : string)
    (loader : S -> result pyval * S) (t1 t2 t3 : Z) (s : S) (c : Cache.t) :
  0 < Cache.ttl c ->
  t3 < t2 + Cache.ttl c ->
  (forall v e,
      Cache.lookup key (Cache.entries c) = Some (v, Some e) ->
      truthy v = true -> t1 <= t3 < e ->
      read_through key loader t1 t2 t3 s c = (Ok v, s, c))
  /\ (forall v e,
         Cache.lookup key (Cache.entries c) = Some (v, Some e) ->
         e <= t1 ->
         read_through key loader t1 t2 t3 s c
         = miss_outcome key loader t1 t2 s c)
  /\ (Cache.lookup key (Cache.entries c) = None ->
      read_through key loader t1 t2 t3 s c = miss_outcome key loader t1 t2 s c)
  /\ (forall x,
         Cache.lookup key
           (Cache.entries (Cache.set key x t2 (snd (Cache.get key t1 c))))
         = Some (x, Some (t2 + Cache.ttl c))).
Proof.
  intros Httl Ht. repeat split.
  - intros v e Hl Hv [H13 H3e].
    apply (read_through_hit key loader t1 t2 t3 s c v (Some e) Hl Hv);
      simpl; apply Z.leb_gt; lia.
  - intros v e Hl He. apply read_through_miss; [|exact Ht].
    rewrite (CacheFacts.get_stale _ _ _ _ _ Hl); [reflexivity|].
    simpl. apply Z.leb_le. exact He.
  - intros Hl. apply read_through_miss; [|exact Ht].
    now rewrite (CacheFacts.get_absent _ _ _ Hl).
  - intros x. rewrite CacheFacts.set_lookup, CacheFacts.get_ttl.
    replace (0 <? Cache.ttl c) with true by (symmetry; apply Z.ltb_lt; lia).
    reflexivity.
Qed.

Lemma read_through_ttl_boundary_witness :
  0 < Cache.ttl StatisticCache
  /\ read_through "plugin" (counting_loader PNone) 1799 1799 1799 0%nat
       (Cache.set "plugin" (PDict [("x", PInt 1)]) 0 StatisticCache)
     = (Ok (PDict [("x", PInt 1)]), 0%nat,
        Cache.set "plugin" (PDict [("x", PInt 1)]) 0 StatisticCache)
  /\ read_through "plugin" (counting_loader (PDict [("x", PInt 2)]))
       1800 1800 1800 0%nat
       (Cache.set "plugin" (PDict [("x", PInt 1)]) 0 StatisticCache)
     = miss_outcome "plugin" (counting_loader (PDict [("x", PInt 2)]))
         1800 1800 0%nat
         (Cache.set "plugin" (PDict [("x", PInt 1)]) 0 StatisticCache).
Proof.
  assert (Httl : 0 < Cache.ttl StatisticCache) by (simpl; lia).
  split; [exact Httl|]. split.
  - refine (proj1 (read_through_ttl_boundary "plugin" (counting_loader PNone)
                     1799 1799 1799 0%nat
                     (Cache.set "plugin" (PDict [("x", PInt 1)]) 0
                        StatisticCache) _ _)
              (PDict [("x", PInt 1)]) 1800 eq_refl eq_refl _);
      simpl; lia.
  - refine (proj1 (proj2 (read_through_ttl_boundary "plugin"
                            (counting_loader (PDict [("x", PInt 2)]))
                            1800 1800 1800 0%nat
                            (Cache.set "plugin" (PDict [("x", PInt 1)]) 0
                               StatisticCache) _ _))
              (PDict [("x", PInt 1)]) 1800 eq_refl _);
      simpl; lia.
Defined.

(** ** Empty results *)

(** C10: a stored value that is empty is never served.  When the entry
    under the key of an endpoint is the empty dict (plugin statistic) or
    the empty list (a page of the subscription statistic), live or not, the
    request queries the database again, returns what the query gives now
    and stores it over the entry; with a loader that counts its calls, a
    request on any stored value that fails the truth test adds one call,
    and the value it stores gets a fresh expiry time, so that the same
    happens again while the result stays empty. *)
Theorem empty_results_are_reloaded (db : Session) (t1 t2 t3 : Z) (c : Cache.t) :
  0 < Cache.ttl c ->
  t3 < t2 + Cache.ttl c ->
  (forall e,
      Cache.lookup "plugin" (Cache.entries c) = Some (PDict [], e) ->
      plugin_statistic db t1 t2 t3 c
      = (Ok (plugin_dict (plugins db)),
         Cache.set "plugin" (plugin_dict (plugins db)) t2
           (snd (Cache.get "plugin" t1 c))))
  /\ (forall stype page count e,
         Cache.lookup (cache_key stype page count) (Cache.entries c)
         = Some (PList [], e) ->
         subscribe_statistic stype page count db t1 t2 t3 c
         = match SubscribeStatistics.list (subscribes db) stype page count with
           | Err err =>
               (Err err, snd (Cache.get (cache_key stype page count) t1 c))
           | Ok statistics =>
               (Ok (PList (map sta_dict statistics)),
                Cache.set (cache_key stype page count)
                  (PList (map sta_dict statistics)) t2
                  (snd (Cache.get (cache_key stype page count) t1 c)))
           end)
  /\ (forall key v e x calls,
         Cache.lookup key (Cache.entries c) = Some (v, e) ->
         truthy v = false ->
         read_through key (counting_loader x) t1 t2 t3 calls c
         = (Ok x, S calls, Cache.set key x t2 (snd (Cache.get key t1 c)))
         /\ Cache.lookup key
              (Cache.entries (Cache.set key x t2 (snd (Cache.get key t1 c))))
            = Some (x, Some (t2 + Cache.ttl c))).
Proof.
  intros Httl Ht. split; [|split; [|intros key v e x calls Hl Hv; split]].
  - intros e Hl. rewrite plugin_statistic_read_through.
    rewrite read_through_miss; [reflexivity | | exact Ht].
    now apply (get_falsy _ _ _ _ _ Hl).
  - intros stype page count e Hl. rewrite subscribe_statistic_read_through.
    rewrite read_through_miss; [| | exact Ht].
    + unfold miss_outcome, subscribe_loader, forget_state.
      destruct (SubscribeStatistics.list (subscribes db) stype page count);
        reflexivity.
    + now apply (get_falsy _ _ _ _ _ Hl).
  - rewrite read_through_miss; [reflexivity | | exact Ht].
    now apply (get_falsy _ _ _ _ _ Hl).
  - rewrite CacheFacts.set_lookup, CacheFacts.get_ttl.
    replace (0 <? Cache.ttl c) with true by (symmetry; apply Z.ltb_lt; lia).
    reflexivity.
Qed.

Lemma empty_results_are_reloaded_witness :
  0 < Cache.ttl StatisticCache
  /\ plugin_statistic
       {| plugins := [PluginStatistics.mk 1 "x" 1]; subscribes := [] |} 1 1 1
       (Cache.set "plugin" (PDict []) 0 StatisticCache)
     = (Ok (PDict [("x", PInt 1)]),
        {| Cache.maxsize := 100; Cache.ttl := 1800;
           Cache.entries :=
             [("plugin", (PDict [("x", PInt 1)], Some 1801))] |}).
Proof.
  assert (Httl : 0 < Cache.ttl StatisticCache) by (simpl; lia).
  split; [exact Httl|].
  refine (proj1 (empty_results_are_reloaded
                   {| plugins := [PluginStatistics.mk 1 "x" 1];
                      subscribes := [] |} 1 1 1
                   (Cache.set "plugin" (PDict []) 0 StatisticCache) _ _)
            (Some 1800) eq_refl); simpl; lia.
Defined.

(** ** Capacity *)

Module CapacityFacts.

Import Cache.

Lemma delete_expired_live (now tend : Z) (es : list entry) :
  now < tend -> live_through tend es -> delete_expired now es = es.
Proof.
  intros Hnow H. unfold delete_expired.
  apply forallb_filter_id. apply forallb_forall. intros e He.
  unfold live_through in H. rewrite Forall_forall in H.
  specialize (H e He). destruct (snd (snd e)) as [x|]; simpl; [|reflexivity].
  apply negb_true_iff, Z.leb_gt. lia.
Qed.

Lemma remove_absent (k : string) (es : list entry) :
  ~ In k (map fst es) -> remove k es = es.
Proof.
  intros H. unfold remove. apply forallb_filter_id. apply forallb_forall.
  intros e He. apply negb_true_iff, String.eqb_neq. intros <-.
  apply H, in_map, He.
Qed.

Lemma lookup_absent (k : string) (es : list entry) :
  ~ In k (map fst es) -> lookup k es = None.
Proof.
  intros H. unfold lookup.
  destruct (find (fun e => String.eqb (fst e) k) es) as [e|] eqn:Hf;
    [|reflexivity].
  apply find_some in Hf. destruct Hf as [Hin Heq].
  apply String.eqb_eq in Heq. subst k. exfalso. apply H, in_map, Hin.
Qed.

Lemma pop_while_full_room (cap : Z) (es : list entry) :
  Z.of_nat (List.length es) < cap -> pop_while_full cap es = es.
Proof.
  intros H. destruct es as [|a es]; [reflexivity|].
  cbn [pop_while_full]. unfold full.
  replace (cap <=? Z.of_nat (List.length (a :: es))) with false
    by (symmetry; apply Z.leb_gt; lia).
  now rewrite andb_false_r.
Qed.

Lemma pop_while_full_exact (cap : Z) (a : entry) (es : list entry) :
  Z.of_nat (List.length (a :: es)) = cap ->
  pop_while_full cap (a :: es) = es.
Proof.
  intros H. cbn [pop_while_full]. unfold full.
  replace (0 <? cap) with true
    by (symmetry; apply Z.ltb_lt; simpl List.length in H; lia).
  replace (cap <=? Z.of_nat (List.length (a :: es))) with true
    by (symmetry; apply Z.leb_le; lia).
  simpl andb. apply pop_while_full_room. simpl List.length in H. lia.
Qed.

(** An insertion of a new key into a cache with room appends it. *)
Lemma set_fresh_room (i : string * pyval * Z) (tend : Z) (c : t) :
  0 < ttl c -> snd i < tend -> live_through tend (entries c) ->
  ~ In (ikey i) (keys c) ->
  Z.of_nat (List.length (entries c)) < maxsize c ->
  set (ikey i) (snd (fst i)) (snd i) c
  = with_entries c (entries c ++ [stamp (ttl c) i]).
Proof.
  intros Httl Hnow Hlive Hk Hroom. unfold set, get_live.
  rewrite (lookup_absent _ _ Hk). unfold evict.
  rewrite (delete_expired_live _ _ _ Hnow Hlive).
  rewrite (pop_while_full_room _ _ Hroom).
  cbn [entries with_entries maxsize ttl].
  rewrite (remove_absent _ _ Hk).
  replace (0 <? ttl c) with true by (symmetry; apply Z.ltb_lt; lia).
  reflexivity.
Qed.

(** An insertion of a new key into a full cache drops the oldest entry
    and appends the new one. *)
Lemma set_fresh_full (i : string * pyval * Z) (tend : Z) (c : t)
    (a : entry) (es : list entry) :
  0 < ttl c -> snd i < tend -> entries c = a :: es ->
  live_through tend (entries c) ->
  ~ In (ikey i) (keys c) ->
  Z.of_nat (List.length (entries c)) = maxsize c ->
  set (ikey i) (snd (fst i)) (snd i) c
  = with_entries c (es ++ [stamp (ttl c) i]).
Proof.
  intros Httl Hnow Hes Hlive Hk Hfull. unfold set, get_live.
  rewrite (lookup_absent _ _ Hk). unfold evict.
  rewrite (delete_expired_live _ _ _ Hnow Hlive).
  rewrite Hes in Hfull |- *.
  rewrite (pop_while_full_exact _ _ _ Hfull).
  cbn [entries with_entries maxsize ttl].
  rewrite remove_absent.
  - replace (0 <? ttl c) with true by (symmetry; apply Z.ltb_lt; lia).
    reflexivity.
  - intros Hin. apply Hk. unfold keys. rewrite Hes. simpl. now right.
Qed.

Lemma insert_all_app (ins1 ins2 : list (string * pyval * Z)) (c : t) :
  insert_all (ins1 ++ ins2) c = insert_all ins2 (insert_all ins1 c).
Proof. unfold insert_all. apply fold_left_app. Qed.

(** While there is room, insertions of new keys pile up in order. *)
Lemma insert_all_room (T : Z) (ins : list (string * pyval * Z)) :
  forall c : t,
    0 < ttl c ->
    live_through (T + ttl c) (entries c) ->
    (forall i, In i ins -> T <= snd i < T + ttl c) ->
    NoDup (keys c ++ map ikey ins) ->
    Z.of_nat (List.length (entries c) + List.length ins) <= maxsize c ->
    insert_all ins c
    = with_entries c (entries c ++ map (stamp (ttl c)) ins).
Proof.
  induction ins as [|i ins IH]; intros c Httl Hlive Hwin Hnd Hroom.
  - simpl. rewrite app_nil_r. destruct c; reflexivity.
  - assert (Hi : T <= snd i < T + ttl c) by (apply Hwin; now left).
    assert (Hk : ~ In (ikey i) (keys c)).
    { intros Hin. apply NoDup_remove_2 in Hnd. apply Hnd.
      apply in_or_app. now left. }
    change (insert_all (i :: ins) c)
      with (insert_all ins (set (ikey i) (snd (fst i)) (snd i) c)).
    rewrite (set_fresh_room i (T + ttl c) c Httl (proj2 Hi) Hlive Hk)
      by (simpl List.length in Hroom; lia).
    rewrite IH; cbn [entries with_entries maxsize ttl keys].
    + rewrite <- app_assoc. reflexivity.
    + exact Httl.
    + unfold live_through. apply Forall_app. split; [exact Hlive|].
      constructor; [simpl; lia | constructor].
    + intros j Hj. apply Hwin. now right.
    + unfold keys in Hnd |- *. cbn [entries with_entries].
      rewrite map_app. simpl map. rewrite <- app_assoc. exact Hnd.
    + rewrite length_app. simpl List.length in Hroom |- *. lia.
Qed.

Lemma keys_stamp (ttl : Z) (ins : list (string * pyval * Z)) :
  map fst (map (stamp ttl) ins) = map ikey ins.
Proof. rewrite map_map. reflexivity. Qed.

Lemma live_through_stamp (T ttl : Z) (ins : list (string * pyval * Z)) :
  (forall i, In i ins -> T <= snd i < T + ttl) ->
  live_through (T + ttl) (map (stamp ttl) ins).
Proof.
  intros H. unfold live_through. apply Forall_map. apply Forall_forall.
  intros i Hi. specialize (H i Hi). simpl. lia.
Qed.

End CapacityFacts.

(** [capacity + 1] insertions of distinct keys into the empty cache, made
    within one TTL, leave the entries of every insertion but the first,
    in order. *)
Lemma insert_all_overflow
    (cap ttl T : Z) (i0 : string * pyval * Z)
    (mid : list (string * pyval * Z)) (ilast : string * pyval * Z) :
  0 < ttl ->
  Z.of_nat (List.length (i0 :: mid)) = cap ->
  NoDup (map ikey ((i0 :: mid) ++ [ilast])) ->
  (forall i, In i ((i0 :: mid) ++ [ilast]) -> T <= snd i < T + ttl) ->
  let c := insert_all ((i0 :: mid) ++ [ilast])
             {| Cache.maxsize := cap; Cache.ttl := ttl; Cache.entries := [] |} in
  Cache.entries c = map (stamp ttl) (mid ++ [ilast])
  /\ (forall now, now < T + ttl ->
        Z.of_nat (List.length (Cache.live now c)) = cap)
  /\ ~ In (ikey i0) (Cache.keys c)
  /\ (forall i, In i (mid ++ [ilast]) -> In (ikey i) (Cache.keys c)).
Proof.
  intros Httl Hcap Hnd Hwin c.
  rewrite map_app in Hnd. simpl map in Hnd.
  pose proof (NoDup_remove _ _ _ Hnd) as [Hnd1 Hlast].
  rewrite app_nil_r in Hnd1, Hlast.
  assert (Hwin1 : forall i, In i (i0 :: mid) -> T <= snd i < T + ttl)
    by (intros i Hi; apply Hwin, in_or_app; now left).
  assert (Hwinl : T <= snd ilast < T + ttl)
    by (apply Hwin, in_or_app; right; now left).
  assert (Hc : c = {| Cache.maxsize := cap; Cache.ttl := ttl;
                      Cache.entries := map (stamp ttl) (mid ++ [ilast]) |}).
  { unfold c. rewrite CapacityFacts.insert_all_app.
    rewrite (CapacityFacts.insert_all_room T (i0 :: mid));
      cbn [Cache.entries Cache.ttl Cache.maxsize Cache.with_entries app].
    - change (insert_all [ilast] ?x)
        with (Cache.set (ikey ilast) (snd (fst ilast)) (snd ilast) x).
      rewrite (CapacityFacts.set_fresh_full ilast (T + ttl) _
                 (stamp ttl i0) (map (stamp ttl) mid));
        cbn [Cache.entries Cache.ttl Cache.maxsize Cache.with_entries].
      + now rewrite map_app.
      + exact Httl.
      + lia.
      + reflexivity.
      + apply (CapacityFacts.live_through_stamp T ttl (i0 :: mid) Hwin1).
      + unfold Cache.keys, Cache.with_entries. cbn [Cache.entries].
        rewrite CapacityFacts.keys_stamp. exact Hlast.
      + unfold Cache.with_entries. cbn [Cache.entries].
        rewrite length_map. exact Hcap.
    - exact Httl.
    - constructor.
    - exact Hwin1.
    - exact Hnd1.
    - simpl List.length in Hcap |- *. lia. }
  assert (Hkeys : Cache.keys c = map ikey (mid ++ [ilast])).
  { rewrite Hc. unfold Cache.keys. cbn [Cache.entries].
    apply CapacityFacts.keys_stamp. }
  split; [now rewrite Hc|]. split; [|split].
  - intros now Hnow. unfold Cache.live. rewrite Hc. cbn [Cache.entries].
    rewrite (CapacityFacts.delete_expired_live now (T + ttl)); [| exact Hnow |].
    + rewrite length_map, length_app. simpl List.length in Hcap |- *. lia.
    + apply CapacityFacts.live_through_stamp.
      intros i Hi. apply Hwin. simpl. right. exact Hi.
  - rewrite Hkeys. rewrite map_app. simpl map.
    simpl map in Hnd. inversion Hnd as [|k l Hnotin Hrest]. exact Hnotin.
  - intros i Hi. rewrite Hkeys. now apply in_map.
Qed.


(** *** Reads do not reorder the cache *)

Module ReadFacts.

Import Cache.

Lemma live_through_filter (tend : Z) (f : entry -> bool) (es : list entry) :
  live_through tend es -> live_through tend (filter f es).
Proof.
  unfold live_through. intros H. apply Forall_forall. intros e He.
  apply filter_In in He. rewrite Forall_forall in H. now apply H.
Qed.

Lemma live_through_pop (tend m : Z) (es : list entry) :
  live_through tend es -> live_through tend (pop_while_full m es).
Proof.
  unfold live_through. induction es as [|a es IH]; simpl; [auto|].
  intros H. destruct (full m (a :: es)); [|exact H].
  apply IH. now inversion H.
Qed.

(** A [get] of a cache in which nothing is stale changes nothing. *)
Lemma get_keeps_cache (k : string) (now tend : Z) (c : t) :
  live_through tend (entries c) -> now < tend -> snd (get k now c) = c.
Proof.
  intros Hlive Hnow. unfold get, get_live, lookup.
  destruct (find (fun e => String.eqb (fst e) k) (entries c)) as [[k' [v e]]|]
    eqn:Hf; simpl; [|reflexivity].
  apply find_some in Hf. destruct Hf as [Hin _].
  unfold live_through in Hlive. rewrite Forall_forall in Hlive.
  specialize (Hlive _ Hin). simpl in Hlive.
  destruct e as [x|]; simpl; [|reflexivity].
  replace (x <=? now) with false by (symmetry; apply Z.leb_gt; lia).
  reflexivity.
Qed.

Lemma set_live_through (k : string) (v : pyval) (now T : Z) (c : t) :
  0 < ttl c -> T <= now -> live_through (T + ttl c) (entries c) ->
  live_through (T + ttl c) (entries (set k v now c)).
Proof.
  intros Httl Hnow Hlive. unfold set, get_live.
  assert (Hnew : live_through (T + ttl c)
                   [(k, (v, if 0 <? ttl c then Some (now + ttl c) else None))]).
  { constructor; [|constructor]. simpl.
    destruct (0 <? ttl c); simpl; [lia | exact I]. }
  destruct (lookup k (entries c)) as [[x e]|].
  - destruct (expired_at now e); unfold evict, with_entries;
      cbn [entries maxsize ttl]; apply Forall_app; (split; [|exact Hnew]).
    + apply live_through_filter, live_through_pop, live_through_filter,
        live_through_filter, Hlive.
    + apply live_through_filter, Hlive.
  - unfold evict, with_entries. cbn [entries maxsize ttl].
    apply Forall_app. split; [|exact Hnew].
    apply live_through_filter, live_through_pop, live_through_filter, Hlive.
Qed.

(** Within one TTL the reads between the insertions leave no trace: the
    calls leave the cache their insertions alone would leave. *)
Lemma cache_run_insert_all (T : Z) (ops : list cache_op) :
  forall c : t,
    0 < ttl c ->
    live_through (T + ttl c) (entries c) ->
    (forall o, In o ops -> T <= op_time o < T + ttl c) ->
    cache_run ops c = insert_all (insertions ops) c.
Proof.
  induction ops as [|o ops IH]; intros c Httl Hlive Hwin; [reflexivity|].
  assert (Ho : T <= op_time o < T + ttl c) by (apply Hwin; now left).
  assert (Hrest : forall o', In o' ops -> T <= op_time o' < T + ttl c)
    by (intros o' Ho'; apply Hwin; now right).
  destruct o as [k now | k v now]; simpl in Ho.
  - change (cache_run (CacheGet k now :: ops) c)
      with (cache_run ops (snd (get k now c))).
    rewrite (get_keeps_cache k now (T + ttl c) c Hlive (proj2 Ho)).
    now apply IH.
  - change (cache_run (CacheSet k v now :: ops) c)
      with (cache_run ops (set k v now c)).
    change (insert_all (insertions (CacheSet k v now :: ops)) c)
      with (insert_all (insertions ops) (set k v now c)).
    apply IH; rewrite ?CacheFacts.set_ttl; auto.
    now apply set_live_through.
Qed.

Lemma in_insertions (ops : list cache_op) (i : string * pyval * Z) :
  In i (insertions ops) ->
  exists o, In o ops /\ op_time o = snd i.
Proof.
  unfold insertions. intros H. apply in_flat_map in H.
  destruct H as (o & Ho & Hi). exists o. split; [exact Ho|].
  destruct o as [k now | k v now]; simpl in Hi; [contradiction|].
  destruct Hi as [<-|[]]. reflexivity.
Qed.

End ReadFacts.

(** C9 (refuted as stated): three insertions of distinct keys into a cache
    of capacity 2 with a TTL of 10, made at the times 0, 1 and 20, leave
    one live entry and not two: the first two keys have expired by the
    time of the third.  And the key that goes is not chosen by use: with
    a read of ["a"] between the insertions of ["b"] and ["c"], the third
    insertion still drops ["a"], the oldest insertion, although the least
    recently used key is ["b"]. *)
Lemma spread_insertions_leave_fewer_entries :
  ~ overflow_keeps_capacity
  /\ Cache.live 20
       (insert_all [("a", PInt 1, 0); ("b", PInt 2, 1); ("c", PInt 3, 20)]
          {| Cache.maxsize := 2; Cache.ttl := 10; Cache.entries := [] |})
     = [("c", (PInt 3, Some 30))]
  /\ Cache.keys
       (cache_run [CacheSet "a" (PInt 1) 0; CacheSet "b" (PInt 2) 1;
                   CacheGet "a" 2; CacheSet "c" (PInt 3) 3]
          {| Cache.maxsize := 2; Cache.ttl := 10; Cache.entries := [] |})
     = ["b"; "c"]
  /\ LRU.least_recently_used ["a"; "b"; "a"] = Some "b".
Proof.
  split; [|repeat split; reflexivity].
  intros H.
  specialize (H 2 10 [("a", PInt 1, 0); ("b", PInt 2, 1)] ("c", PInt 3, 20)
                ltac:(lia) ltac:(lia) eq_refl).
  assert (Hnd : NoDup (map ikey ([("a", PInt 1, 0); ("b", PInt 2, 1)]
                                 ++ [("c", PInt 3, 20)])))
    by (simpl; repeat constructor; simpl; intuition discriminate).
  specialize (H Hnd eq_refl). vm_compute in H. discriminate H.
Qed.

(** C9 (amended): [capacity + 1] insertions of distinct keys into the
    empty cache, all made within one TTL and with any reads between them,
    leave exactly [capacity] entries, all live: those of every insertion
    but the first, in the order they were made.  The one key that is gone
    is the one inserted first, whether it was read since or not. *)
Theorem overflow_evicts_oldest_inserted
    (cap ttl T : Z) (ops : list cache_op) (i0 : string * pyval * Z)
    (mid : list (string * pyval * Z)) (ilast : string * pyval * Z) :
  0 < ttl ->
  insertions ops = (i0 :: mid) ++ [ilast] ->
  Z.of_nat (List.length (i0 :: mid)) = cap ->
  NoDup (map ikey ((i0 :: mid) ++ [ilast])) ->
  (forall o, In o ops -> T <= op_time o < T + ttl) ->
  let c := cache_run ops
             {| Cache.maxsize := cap; Cache.ttl := ttl; Cache.entries := [] |} in
  Cache.entries c = map (stamp ttl) (mid ++ [ilast])
  /\ (forall now, now < T + ttl ->
        Z.of_nat (List.length (Cache.live now c)) = cap)
  /\ ~ In (ikey i0) (Cache.keys c)
  /\ (forall i, In i (mid ++ [ilast]) -> In (ikey i) (Cache.keys c)).
Proof.
  intros Httl Hins Hcap Hnd Hwin c. unfold c.
  rewrite (ReadFacts.cache_run_insert_all T ops);
    cbn [Cache.ttl Cache.entries]; [| exact Httl | constructor | exact Hwin].
  rewrite Hins.
  apply (insert_all_overflow cap ttl T i0 mid ilast Httl Hcap Hnd).
  intros i Hi. rewrite <- Hins in Hi.
  destruct (ReadFacts.in_insertions ops i Hi) as (o & Ho & Ht).
  rewrite <- Ht. now apply Hwin.
Qed.

Lemma overflow_evicts_oldest_inserted_witness :
  Cache.keys
    (cache_run [CacheSet "a" (PInt 1) 0; CacheSet "b" (PInt 2) 1;
                CacheGet "a" 2; CacheSet "c" (PInt 3) 3]
       {| Cache.maxsize := 2; Cache.ttl := 1800; Cache.entries := [] |})
  = ["b"; "c"]
  /\ ~ In "a"
       (Cache.keys
          (cache_run [CacheSet "a" (PInt 1) 0; CacheSet "b" (PInt 2) 1;
                      CacheGet "a" 2; CacheSet "c" (PInt 3) 3]
             {| Cache.maxsize := 2; Cache.ttl := 1800; Cache.entries := [] |})).
Proof.
  split; [reflexivity|].
  refine (proj1 (proj2 (proj2
            (overflow_evicts_oldest_inserted 2 1800 0
               [CacheSet "a" (PInt 1) 0; CacheSet "b" (PInt 2) 1;
                CacheGet "a" 2; CacheSet "c" (PInt 3) 3]
               ("a", PInt 1, 0) [("b", PInt 2, 1)] ("c", PInt 3, 3)
               _ _ _ _ _)))).
  - lia.
  - reflexivity.
  - reflexivity.
  - simpl. repeat constructor; simpl; intuition discriminate.
  - intros o [<-|[<-|[<-|[<-|[]]]]]; simpl; lia.
Defined.

(** ** The paginated listing *)

Module ListingFacts.

Import SubscribeStatistics.

Lemma ids_increasing_skipn (n : nat) :
  forall (tb : table) lo,
    ids_increasing lo tb -> ids_increasing lo (skipn n tb).
Proof.
  induction n as [|n IH]; intros tb lo H; [exact H|].
  destruct tb as [|a tl]; [exact I|]. simpl. destruct H as [H1 H2].
  apply IH. eapply TableInvariants.ids_increasing_weaken; [|exact H2]. lia.
Qed.

Lemma ids_increasing_firstn (n : nat) :
  forall (tb : table) lo,
    ids_increasing lo tb -> ids_increasing lo (firstn n tb).
Proof.
  induction n as [|n IH]; intros tb lo H; [exact I|].
  destruct tb as [|a tl]; [exact I|]. simpl. destruct H as [H1 H2].
  split; [exact H1 | now apply IH].
Qed.

Lemma in_firstn {A} (n : nat) (l : Datatypes.list A) (x : A) :
  In x (firstn n l) -> In x l.
Proof.
  intros H. rewrite <- (firstn_skipn n l). apply in_or_app. now left.
Qed.

Lemma in_skipn {A} (n : nat) (l : Datatypes.list A) (x : A) :
  In x (skipn n l) -> In x l.
Proof.
  intros H. rewrite <- (firstn_skipn n l). apply in_or_app. now right.
Qed.

Lemma has_type_eq (stype : string) (r : t) :
  has_type stype r = true <-> type (attrs r) = Some stype.
Proof.
  unfold has_type. apply SubscribeFacts.opt_eqb_eq. apply String.eqb_eq.
Qed.

End ListingFacts.

(** C7: the listing fails with [InvalidPagination] when [page] or [count]
    is not positive.  For positive arguments it returns the page: the rows
    of the asked type, in the order of the table, from row
    [(page - 1) * count] on and at most [count] of them; they are rows of
    the table, of that type, and their primary keys grow along the page.
    A request of [subscribe_statistic] that finds nothing to serve in the
    cache fails in the first case and returns the dicts of these rows in
    the second. *)
Theorem listing_is_paginated
    (tb : SubscribeStatistics.table) (stype : string) (page count : Z) :
  ids_increasing 0 tb ->
  (page <= 0 \/ count <= 0 ->
   SubscribeStatistics.list tb stype page count = Err InvalidPagination)
  /\ (0 < page -> 0 < count ->
      exists rows,
        SubscribeStatistics.list tb stype page count = Ok rows
        /\ rows = firstn (Z.to_nat count)
                    (skipn (Z.to_nat ((page - 1) * count))
                       (filter (SubscribeStatistics.has_type stype) tb))
        /\ (List.length rows <= Z.to_nat count)%nat
        /\ ids_increasing 0 rows
        /\ forall r, In r rows ->
             In r tb /\ type (SubscribeStatistics.attrs r) = Some stype)
  /\ (forall db t1 t2 t3 c,
         subscribes db = tb ->
         truthy (fst (Cache.get (cache_key stype page count) t1 c)) = false ->
         t3 < t2 + Cache.ttl c ->
         fst (subscribe_statistic stype page count db t1 t2 t3 c)
         = match SubscribeStatistics.list tb stype page count with
           | Err e => Err e
           | Ok rows => Ok (PList (map sta_dict rows))
           end).
Proof.
  intros Hid. split; [|split].
  - intros Hbad. unfold SubscribeStatistics.list.
    replace ((page <=? 0) || (count <=? 0)) with true; [reflexivity|].
    symmetry. apply orb_true_iff.
    destruct Hbad; [left | right]; now apply Z.leb_le.
  - intros Hp Hc. unfold SubscribeStatistics.list.
    replace ((page <=? 0) || (count <=? 0)) with false
      by (symmetry; apply orb_false_iff; split; apply Z.leb_gt; lia).
    eexists. split; [reflexivity|]. split; [reflexivity|].
    split; [apply firstn_le_length|]. split.
    + apply ListingFacts.ids_increasing_firstn,
        ListingFacts.ids_increasing_skipn,
        TableInvariants.ids_increasing_filter, Hid.
    + intros r Hr.
      apply ListingFacts.in_firstn, ListingFacts.in_skipn, filter_In in Hr.
      destruct Hr as [Hin Hty]. split; [exact Hin|].
      now apply ListingFacts.has_type_eq.
  - intros db t1 t2 t3 c Hdb Hmiss Ht.
    rewrite subscribe_statistic_read_through.
    rewrite read_through_miss by assumption.
    unfold miss_outcome, subscribe_loader, forget_state. rewrite Hdb.
    destruct (SubscribeStatistics.list tb stype page count); reflexivity.
Qed.

Lemma listing_is_paginated_witness :
  ids_increasing 0 listing_table
  /\ SubscribeStatistics.list listing_table "tv" 0 30 = Err InvalidPagination
  /\ exists rows,
      SubscribeStatistics.list listing_table "tv" 1 30 = Ok rows
      /\ ids_increasing 0 rows.
Proof.
  assert (Hid : ids_increasing 0 listing_table)
    by (simpl; repeat split; lia).
  split; [exact Hid|].
  destruct (listing_is_paginated listing_table "tv" 0 30 Hid) as (Hbad & _).
  destruct (listing_is_paginated listing_table "tv" 1 30 Hid)
    as (_ & Hgood & _).
  split; [apply Hbad; left; lia|].
  destruct (Hgood ltac:(lia) ltac:(lia)) as (rows & Hrun & _ & _ & Hsorted & _).
  exists rows. split; [exact Hrun | exact Hsorted].
Defined.

(** * Further properties of the endpoints *)

(** ** Keys that grow along a table *)

Section KeysIncreasing.

Context {A : Type} (key : A -> Z).

Lemma keys_increasing_weaken (l : list A) (lo lo' : Z) :
  lo' <= lo -> keys_increasing key lo l -> keys_increasing key lo' l.
Proof. destruct l; simpl; [tauto|]. intros Hle [H1 H2]. split; [lia|auto]. Qed.

Lemma keys_above (l : list A) :
  forall lo, keys_increasing key lo l -> Forall (fun x => lo < key x) l.
Proof.
  induction l as [|a tl IH]; intros lo; simpl; [constructor|].
  intros [H1 H2]. constructor; [exact H1|].
  apply IH. eapply keys_increasing_weaken; [|exact H2]. lia.
Qed.

Lemma keys_increasing_snoc (l : list A) (x : A) :
  forall lo, keys_increasing key lo l -> lo < key x ->
             (forall a, In a l -> key a < key x) ->
             keys_increasing key lo (l ++ [x]).
Proof.
  induction l as [|a tl IH]; intros lo; simpl.
  - tauto.
  - intros [H1 H2] Hlo Hall. split; [exact H1|]. apply IH; auto.
Qed.

Lemma keys_increasing_map (g : A -> A) (l : list A) :
  (forall a, key (g a) = key a) ->
  forall lo, keys_increasing key lo l -> keys_increasing key lo (map g l).
Proof.
  intros Hg. induction l as [|a tl IH]; intros lo; simpl; [tauto|].
  intros [H1 H2]. rewrite Hg. split; [exact H1 | now apply IH].
Qed.

(** Two rows of such a table with the same key are the same row. *)
Lemma keys_increasing_inj (l : list A) :
  forall lo a b, keys_increasing key lo l ->
                 In a l -> In b l -> key a = key b -> a = b.
Proof.
  induction l as [|x tl IH]; intros lo a b; simpl; [tauto|].
  intros [H1 H2] Ha Hb Hk.
  pose proof (keys_above _ _ H2) as Habove. rewrite Forall_forall in Habove.
  destruct Ha as [->|Ha], Hb as [->|Hb].
  - reflexivity.
  - specialize (Habove _ Hb). lia.
  - specialize (Habove _ Ha). lia.
  - exact (IH _ _ _ H2 Ha Hb Hk).
Qed.

End KeysIncreasing.

(** ** Reports of plugins *)

Module PluginTableFacts.

Import PluginStatistics.

Lemma plugin_id_below_next (tb : table) (r : t) : In r tb -> id r < next_id tb.
Proof.
  unfold next_id. induction tb as [|a tl IH]; cbn [In map fold_right];
    [tauto|].
  intros [->|Hin]; [lia|]. specialize (IH Hin). lia.
Qed.

Lemma next_id_positive (tb : table) : 0 < next_id tb.
Proof.
  unfold next_id.
  assert (0 <= fold_right Z.max 0 (map id tb)); [|lia].
  induction tb; cbn [map fold_right]; lia.
Qed.

Lemma read_none_not_in (tb : table) (pid : string) :
  read tb pid = None -> ~ In pid (map plugin_id tb).
Proof.
  unfold read. intros H Hin. apply in_map_iff in Hin.
  destruct Hin as (r & Hr & Hin).
  pose proof (find_none _ _ H r Hin) as Hf. cbv beta in Hf.
  rewrite Hr, String.eqb_refl in Hf. discriminate.
Qed.

Lemma plugin_ids_update (self : t) (c : Z) (tb : table) :
  map plugin_id (update self c tb) = map plugin_id tb.
Proof.
  unfold update. rewrite map_map. apply map_ext.
  intros a. destruct (id a =? id self); reflexivity.
Qed.

(** A write to the row of one plugin leaves the lookup of another. *)
Lemma plugin_read_update_other (tb : table) (self : t) (c : Z) (pid : string) :
  keys_increasing id 0 tb -> In self tb -> plugin_id self <> pid ->
  read (update self c tb) pid = read tb pid.
Proof.
  intros Hk Hin Hne. unfold read, update. rewrite find_map_stable.
  - destruct (find (fun r => String.eqb (plugin_id r) pid) tb) as [r|] eqn:Hr;
      [|reflexivity].
    simpl. apply find_some in Hr. destruct Hr as [Hrin Hrp].
    apply String.eqb_eq in Hrp.
    destruct (id r =? id self) eqn:E; [|reflexivity].
    apply Z.eqb_eq in E.
    pose proof (keys_increasing_inj id tb 0 r self Hk Hrin Hin E) as ->.
    contradiction.
  - intros a. destruct (id a =? id self); reflexivity.
Qed.

Lemma plugin_read_create_other (tb : table) (pid' pid : string) (c : Z) :
  pid' <> pid -> read (create pid' c tb) pid = read tb pid.
Proof.
  intros Hne. unfold read, create. rewrite find_snoc.
  destruct (find (fun r => String.eqb (plugin_id r) pid) tb); [reflexivity|].
  simpl. apply String.eqb_neq in Hne. now rewrite Hne.
Qed.

End PluginTableFacts.

(** One report keeps the plugin table well-formed. *)
Lemma plugins_well_formed_install (pid : string) (db : Session) :
  plugins_well_formed db -> plugins_well_formed (install_db pid db).
Proof.
  intros (Hk & Hnd & Hpos). unfold install_db, plugin_install.
  destruct (PluginStatistics.read (plugins db) pid) as [r|] eqn:Hr;
    unfold plugins_well_formed; cbn [plugins set_plugins].
  - pose proof (PluginFacts.plugin_read_found _ _ _ Hr) as [_ Hin].
    split; [|split].
    + apply keys_increasing_map; [|exact Hk].
      intros a. destruct (PluginStatistics.id a =? PluginStatistics.id r);
        reflexivity.
    + now rewrite PluginTableFacts.plugin_ids_update.
    + unfold PluginStatistics.update. apply Forall_map.
      rewrite Forall_forall in Hpos |- *. intros a Ha.
      pose proof (Hpos a Ha). pose proof (Hpos r Hin).
      destruct (PluginStatistics.id a =? PluginStatistics.id r); simpl; lia.
  - unfold PluginStatistics.create. split; [|split].
    + apply keys_increasing_snoc; [exact Hk | |].
      * apply PluginTableFacts.next_id_positive.
      * intros a Ha. now apply PluginTableFacts.plugin_id_below_next.
    + rewrite map_app. simpl map.
      apply NoDup_app; [exact Hnd | repeat constructor; simpl; tauto |].
      intros x Hx [<-|[]].
      exact (PluginTableFacts.read_none_not_in _ _ Hr Hx).
    + apply Forall_app. split; [exact Hpos|].
      constructor; [simpl; lia | constructor].
Qed.

Lemma read_install_other (pid' pid : string) (db : Session) :
  plugins_well_formed db -> pid' <> pid ->
  PluginStatistics.read (plugins (install_db pid' db)) pid
  = PluginStatistics.read (plugins db) pid.
Proof.
  intros (Hk & _ & _) Hne. unfold install_db, plugin_install.
  destruct (PluginStatistics.read (plugins db) pid') as [r|] eqn:Hr;
    cbn [plugins set_plugins].
  - pose proof (PluginFacts.plugin_read_found _ _ _ Hr) as [Hp Hin].
    apply PluginTableFacts.plugin_read_update_other; [exact Hk | exact Hin |].
    now rewrite Hp.
  - now apply PluginTableFacts.plugin_read_create_other.
Qed.

Lemma subscribes_install (pid : string) (db : Session) :
  subscribes (install_db pid db) = subscribes db.
Proof.
  unfold install_db, plugin_install.
  destruct (PluginStatistics.read (plugins db) pid); reflexivity.
Qed.

(** X1: a report of one plugin never changes the row or the count stored
    for another one, and leaves the subscription table alone. *)
Theorem plugin_install_leaves_other_plugins
    (pid' pid : string) (db : Session) :
  plugins_well_formed db -> pid' <> pid ->
  exists db',
    plugin_install pid' db = Ok (success, db')
    /\ stored_count pid db' = stored_count pid db
    /\ PluginStatistics.read (plugins db') pid
       = PluginStatistics.read (plugins db) pid
    /\ subscribes db' = subscribes db.
Proof.
  intros Hwf Hne. exists (install_db pid' db).
  split; [apply plugin_install_ok|].
  pose proof (read_install_other pid' pid db Hwf Hne) as Hread.
  split; [unfold stored_count; now rewrite Hread|].
  split; [exact Hread | apply subscribes_install].
Qed.

Lemma plugins_well_formed_two : plugins_well_formed db_two_plugins.
Proof.
  unfold plugins_well_formed. simpl. split; [|split].
  - repeat split; lia.
  - repeat constructor; simpl; intuition discriminate.
  - repeat constructor; simpl; lia.
Defined.

Lemma plugin_install_leaves_other_plugins_witness :
  plugins_well_formed db_two_plugins
  /\ exists db',
      plugin_install "b" db_two_plugins = Ok (success, db')
      /\ stored_count "a" db' = Some 3.
Proof.
  split; [exact plugins_well_formed_two|].
  destruct (plugin_install_leaves_other_plugins "b" "a" db_two_plugins
              plugins_well_formed_two ltac:(discriminate))
    as (db' & Hrun & Hc & _).
  exists db'. split; [exact Hrun | exact Hc].
Defined.

(** ** Batches of plugin reports *)

Lemma plugin_batch_install_ok (pids : list string) (db : Session) :
  plugin_batch_install pids db = Ok (success, batch_db pids db).
Proof.
  revert db. induction pids as [|pid rest IH]; intros db; simpl.
  - reflexivity.
  - rewrite plugin_install_ok. simpl. apply IH.
Qed.

Lemma plugins_well_formed_batch (pids : list string) :
  forall db, plugins_well_formed db -> plugins_well_formed (batch_db pids db).
Proof.
  induction pids as [|pid rest IH]; intros db Hwf; simpl; [exact Hwf|].
  apply IH. now apply plugins_well_formed_install.
Qed.

Lemma bumped_step (o : option Z) (k : Z) :
  0 <= k ->
  bumped (Some (match o with Some c => c + 1 | None => 1 end)) k
  = bumped o (k + 1).
Proof.
  intros Hk. unfold bumped.
  replace (k + 1 =? 0) with false by (symmetry; apply Z.eqb_neq; lia).
  destruct (k =? 0) eqn:E.
  - apply Z.eqb_eq in E. subst k. destruct o; f_equal; lia.
  - destruct o; f_equal; lia.
Qed.

Lemma stored_count_batch (pid : string) (pids : list string) :
  forall db, plugins_well_formed db ->
    stored_count pid (batch_db pids db)
    = bumped (stored_count pid db) (occurrences pid pids).
Proof.
  induction pids as [|h rest IH]; intros db Hwf.
  - reflexivity.
  - change (batch_db (h :: rest) db) with (batch_db rest (install_db h db)).
    rewrite IH by now apply plugins_well_formed_install.
    unfold occurrences. cbn [count_occ].
    destruct (string_dec h pid) as [->|Hne].
    + rewrite stored_count_install, Nat2Z.inj_succ, <- Z.add_1_r.
      apply bumped_step. lia.
    + unfold stored_count. now rewrite read_install_other.
Qed.

(** X2: a batch of plugin reports always succeeds, and afterwards every
    plugin's stored count is its old count (0 when it had no row) plus the
    number of times it is in the batch; a plugin that is not in the batch
    keeps what it had, no row included.  An empty batch changes nothing. *)
Theorem plugin_batch_install_counts (pids : list string) (db : Session) :
  plugins_well_formed db ->
  exists db',
    plugin_batch_install pids db = Ok (success, db')
    /\ plugins_well_formed db'
    /\ subscribes db' = subscribes db
    /\ (pids = [] -> db' = db)
    /\ forall pid,
        stored_count pid db'
        = bumped (stored_count pid db) (occurrences pid pids).
Proof.
  intros Hwf. exists (batch_db pids db).
  split; [apply plugin_batch_install_ok|].
  split; [now apply plugins_well_formed_batch|].
  split; [|split].
  - clear Hwf. revert db. induction pids as [|h rest IH]; intros db; simpl;
      [reflexivity|]. rewrite IH. apply subscribes_install.
  - intros ->. reflexivity.
  - intros pid. now apply stored_count_batch.
Qed.

Lemma plugin_batch_install_counts_witness :
  plugins_well_formed db_two_plugins
  /\ exists db',
      plugin_batch_install ["b"; "c"; "b"] db_two_plugins = Ok (success, db')
      /\ stored_count "a" db' = Some 3
      /\ stored_count "b" db' = Some 3
      /\ stored_count "c" db' = Some 1.
Proof.
  split; [exact plugins_well_formed_two|].
  destruct (plugin_batch_install_counts ["b"; "c"; "b"] db_two_plugins
              plugins_well_formed_two) as (db' & Hrun & _ & _ & _ & Hc).
  exists db'. split; [exact Hrun|].
  split; [exact (Hc "a") | split; [exact (Hc "b") | exact (Hc "c")]].
Defined.

(** X3: the order of a batch does not matter for the counts: two batches
    that are permutations of each other leave the same stored count for
    every plugin. *)
Theorem plugin_batch_install_order (pids pids' : list string) (db : Session) :
  plugins_well_formed db -> Permutation pids pids' ->
  exists db1 db2,
    plugin_batch_install pids db = Ok (success, db1)
    /\ plugin_batch_install pids' db = Ok (success, db2)
    /\ forall pid, stored_count pid db1 = stored_count pid db2.
Proof.
  intros Hwf Hperm. exists (batch_db pids db), (batch_db pids' db).
  split; [apply plugin_batch_install_ok|].
  split; [apply plugin_batch_install_ok|].
  intros pid. rewrite !stored_count_batch by exact Hwf.
  unfold occurrences.
  now rewrite (proj1 (Permutation_count_occ string_dec pids pids') Hperm pid).
Qed.

Lemma plugin_batch_install_order_witness :
  plugins_well_formed db_two_plugins
  /\ exists db1 db2,
      plugin_batch_install ["b"; "c"] db_two_plugins = Ok (success, db1)
      /\ plugin_batch_install ["c"; "b"] db_two_plugins = Ok (success, db2)
      /\ stored_count "c" db1 = stored_count "c" db2.
Proof.
  split; [exact plugins_well_formed_two|].
  destruct (plugin_batch_install_order ["b"; "c"] ["c"; "b"] db_two_plugins
              plugins_well_formed_two (perm_swap "c" "b" []))
    as (db1 & db2 & H1 & H2 & Hc).
  exists db1, db2. split; [exact H1 | split; [exact H2 | exact (Hc "c")]].
Defined.

(** ** Plugin counts only grow *)

Lemma plugins_grow_refl (db : Session) : plugins_grow db db.
Proof. intros pid c H. exists c. split; [exact H | lia]. Qed.

Lemma plugins_grow_trans (db1 db2 db3 : Session) :
  plugins_grow db1 db2 -> plugins_grow db2 db3 -> plugins_grow db1 db3.
Proof.
  intros H12 H23 pid c Hc.
  destruct (H12 pid c Hc) as (c2 & Hc2 & Hle2).
  destruct (H23 pid c2 Hc2) as (c3 & Hc3 & Hle3).
  exists c3. split; [exact Hc3 | lia].
Qed.

Lemma plugins_grow_same_table (db db' : Session) :
  plugins db' = plugins db -> plugins_grow db db'.
Proof.
  intros E pid c H. exists c. unfold stored_count in *. rewrite E.
  split; [exact H | lia].
Qed.

Lemma plugins_grow_batch (pids : list string) (db : Session) :
  plugins_well_formed db -> plugins_grow db (batch_db pids db).
Proof.
  intros Hwf pid c Hc. rewrite stored_count_batch by exact Hwf.
  rewrite Hc. unfold bumped, occurrences.
  destruct (Z.of_nat (count_occ string_dec pids pid) =? 0).
  - exists c. split; [reflexivity | lia].
  - eexists. split; [reflexivity | lia].
Qed.

Lemma subscribe_report_plugins (subs : list SubscribeStatistic) :
  forall db, exists db',
    subscribe_report subs db = Ok (success, db') /\ plugins db' = plugins db.
Proof.
  induction subs as [|p rest IH]; intros db; simpl.
  - now exists db.
  - unfold subscribe_add at 1.
    destruct (SubscribeStatistics.read (subscribes db) (mid_of p) (season p));
      simpl;
      match goal with
      | |- context [subscribe_report rest ?d] =>
          destruct (IH d) as (db' & Hrun & Hp); exists db'; split;
            [exact Hrun | rewrite Hp; reflexivity]
      end.
Qed.

(** What one request does to the plugin table. *)
Lemma handle_plugins (r : request) (db : Session) :
  plugins_well_formed db ->
  exists v db',
    handle r db = Ok (v, db')
    /\ plugins_well_formed db'
    /\ plugins_grow db db'.
Proof.
  intros Hwf. destruct r as [pid|pids|p|p|subs]; simpl.
  - exists success, (install_db pid db).
    split; [apply plugin_install_ok|].
    split; [now apply plugins_well_formed_install|].
    exact (plugins_grow_batch [pid] db Hwf).
  - exists success, (batch_db pids db).
    split; [apply plugin_batch_install_ok|].
    split; [now apply plugins_well_formed_batch|].
    now apply plugins_grow_batch.
  - unfold subscribe_add.
    destruct (SubscribeStatistics.read (subscribes db) (mid_of p) (season p));
      eexists _, _; (split; [reflexivity|]);
      (split; [exact Hwf | now apply plugins_grow_same_table]).
  - unfold subscribe_done.
    destruct (SubscribeStatistics.read (subscribes db) (mid_of p) (season p))
      as [r|]; [destruct (SubscribeStatistics.count r <=? 1)|];
      eexists _, _; (split; [reflexivity|]);
      (split; [exact Hwf | now apply plugins_grow_same_table]).
  - destruct (subscribe_report_plugins subs db) as (db' & Hrun & Hp).
    exists success, db'. split; [exact Hrun|].
    split; [|now apply plugins_grow_same_table].
    unfold plugins_well_formed in *. now rewrite Hp.
Qed.

(** X4: no request takes a plugin's row away or lowers its count.  Every
    sequence of requests to the writing endpoints (single and batch plugin
    reports, subscription reports, completions) runs to its end, keeps the
    plugin table well-formed (growing primary keys, one row per plugin,
    counts of at least 1), and leaves every plugin that had a row with a
    row whose count is at least what it was. *)
Theorem plugin_counts_never_decrease (rs : list request) (db : Session) :
  plugins_well_formed db ->
  exists db',
    handle_all rs db = Ok db'
    /\ plugins_well_formed db'
    /\ forall pid c,
        stored_count pid db = Some c ->
        exists c', stored_count pid db' = Some c' /\ c <= c'.
Proof.
  revert db. induction rs as [|r rest IH]; intros db Hwf.
  - exists db. split; [reflexivity|]. split; [exact Hwf|].
    apply plugins_grow_refl.
  - destruct (handle_plugins r db Hwf) as (v & db1 & Hrun & Hwf1 & Hg1).
    destruct (IH db1 Hwf1) as (db' & Hrest & Hwf' & Hg').
    exists db'. split; [simpl; rewrite Hrun; exact Hrest|].
    split; [exact Hwf'|].
    exact (plugins_grow_trans db db1 db' Hg1 Hg').
Qed.

Lemma plugin_counts_never_decrease_witness :
  plugins_well_formed db_two_plugins
  /\ exists db' c',
      handle_all [SubscribeAdd title_603; PluginBatchInstall ["c"; "a"];
                  SubscribeDone title_603; PluginInstall "b"] db_two_plugins
      = Ok db'
      /\ stored_count "a" db' = Some c' /\ 3 <= c'.
Proof.
  split; [exact plugins_well_formed_two|].
  destruct (plugin_counts_never_decrease
              [SubscribeAdd title_603; PluginBatchInstall ["c"; "a"];
               SubscribeDone title_603; PluginInstall "b"] db_two_plugins
              plugins_well_formed_two) as (db' & Hrun & _ & Hg).
  destruct (Hg "a" 3 eq_refl) as (c' & Hc & Hle).
  exists db', c'. split; [exact Hrun | split; [exact Hc | exact Hle]].
Defined.

(** ** Reports and completions of one title *)

Module CounterFacts.

Import SubscribeStatistics.

(** The row of the walk is found by the lookup of its identity. *)
Lemma read_last (tb : table) (p : SubscribeStatistic) (c : Z) :
  read tb (mid_of p) (season p) = None ->
  read (tb ++ [mk (next_id tb) p None c]) (mid_of p) (season p)
  = Some (mk (next_id tb) p None c).
Proof. intros H. exact (SubscribeFacts.read_create tb p c H). Qed.

(** A write to that row rewrites its count and nothing else. *)
Lemma update_last (tb : table) (p : SubscribeStatistic) (c c' : Z) :
  update (mk (next_id tb) p None c) c' (tb ++ [mk (next_id tb) p None c])
  = tb ++ [mk (next_id tb) p None c'].
Proof.
  unfold update. rewrite map_app. cbn [map id]. rewrite Z.eqb_refl.
  f_equal. apply TableInvariants.map_unchanged. apply Forall_forall.
  intros a Ha. apply SubscribeFacts.id_below_next in Ha.
  replace (id a =? next_id tb) with false
    by (symmetry; apply Z.eqb_neq; lia).
  reflexivity.
Qed.

Lemma counter_step_nonneg (c : Z) (add : bool) :
  0 <= c -> 0 <= counter_step c add.
Proof.
  intros H. unfold counter_step. destruct add; [lia|].
  destruct (c <=? 1) eqn:E; [lia|]. apply Z.leb_gt in E. lia.
Qed.

Lemma counter_walk_nonneg (steps : Datatypes.list bool) :
  forall c, 0 <= c -> 0 <= counter_walk steps c.
Proof.
  unfold counter_walk. induction steps as [|b rest IH]; intros c Hc; simpl.
  - exact Hc.
  - apply IH. now apply counter_step_nonneg.
Qed.

(** One report or completion moves the table one step of the walk. *)
Lemma apply_op_step (db : Session) (p : SubscribeStatistic) (c : Z)
    (add : bool) :
  read (subscribes db) (mid_of p) (season p) = None ->
  0 <= c ->
  apply_op (op_of p add)
    {| plugins := plugins db; subscribes := table_with (subscribes db) p c |}
  = Ok (success,
        {| plugins := plugins db;
           subscribes := table_with (subscribes db) p (counter_step c add) |}).
Proof.
  intros Habs Hc. unfold table_with at 1.
  destruct (c <=? 0) eqn:E0.
  - apply Z.leb_le in E0. assert (c = 0) by lia. subst c.
    destruct add; simpl; [unfold subscribe_add | unfold subscribe_done];
      cbn [subscribes plugins]; rewrite Habs; reflexivity.
  - apply Z.leb_gt in E0.
    destruct add; simpl; [unfold subscribe_add | unfold subscribe_done];
      cbn [subscribes plugins]; rewrite (read_last _ _ _ Habs);
      cbn [count id]; unfold set_subscribes; cbn [subscribes plugins].
    + rewrite update_last. unfold table_with.
      replace (c + 1 <=? 0) with false by (symmetry; apply Z.leb_gt; lia).
      reflexivity.
    + destruct (c <=? 1) eqn:E1.
      * pose proof (SubscribeFacts.delete_create (subscribes db) p c) as Hd.
        unfold create in Hd. rewrite Hd. reflexivity.
      * apply Z.leb_gt in E1. rewrite update_last. unfold table_with.
        replace (c - 1 <=? 0) with false by (symmetry; apply Z.leb_gt; lia).
        reflexivity.
Qed.

End CounterFacts.

Lemma apply_ops_walk (p : SubscribeStatistic) (db : Session)
    (steps : list bool) :
  SubscribeStatistics.read (subscribes db) (mid_of p) (season p) = None ->
  forall c, 0 <= c ->
    apply_ops (map (op_of p) steps)
      {| plugins := plugins db; subscribes := table_with (subscribes db) p c |}
    = Ok {| plugins := plugins db;
            subscribes := table_with (subscribes db) p (counter_walk steps c) |}.
Proof.
  intros Habs. induction steps as [|b rest IH]; intros c Hc.
  - reflexivity.
  - cbn [map apply_ops]. rewrite (CounterFacts.apply_op_step db p c b Habs Hc).
    simpl bind. apply IH. now apply CounterFacts.counter_step_nonneg.
Qed.

Lemma counter_walk_adds (n : nat) (c : Z) :
  counter_walk (repeat true n) c = c + Z.of_nat n.
Proof.
  revert c. unfold counter_walk.
  induction n as [|n IH]; intros c; [simpl; lia|].
  cbn [repeat fold_left]. rewrite IH. unfold counter_step. lia.
Qed.

Lemma counter_walk_dones (m : nat) (c : Z) :
  0 <= c -> counter_walk (repeat false m) c = Z.max 0 (c - Z.of_nat m).
Proof.
  revert c. unfold counter_walk.
  induction m as [|m IH]; intros c Hc; [simpl; lia|].
  cbn [repeat fold_left].
  assert (Hs : 0 <= counter_step c false)
    by now apply CounterFacts.counter_step_nonneg.
  rewrite (IH _ Hs). unfold counter_step.
  destruct (c <=? 1) eqn:E; [apply Z.leb_le in E | apply Z.leb_gt in E]; lia.
Qed.

(** X5: the reports and completions of one title implement a counter that
    stops at zero.  From a database with no row for the identity, any
    sequence of [subscribe_add] and [subscribe_done] calls with the body
    [subscribe] succeeds and leaves the table it started from, plus, when
    the walk ends above 0, one row at the end: that of [subscribe] with
    the count the walk ends at.  A report adds 1; a completion takes 1
    off, and at a count of 1 or 0 it leaves no row. *)
Theorem subscription_counter_walk
    (subscribe : SubscribeStatistic) (db : Session) (steps : list bool) :
  SubscribeStatistics.read (subscribes db)
    (mid_of subscribe) (season subscribe) = None ->
  apply_ops (map (op_of subscribe) steps) db
  = Ok {| plugins := plugins db;
          subscribes :=
            table_with (subscribes db) subscribe (counter_walk steps 0) |}
  /\ 0 <= counter_walk steps 0
  /\ (counter_walk steps 0 = 0 ->
      apply_ops (map (op_of subscribe) steps) db = Ok db).
Proof.
  intros Habs.
  pose proof (apply_ops_walk subscribe db steps Habs 0 ltac:(lia)) as H.
  assert (E : {| plugins := plugins db;
                 subscribes := table_with (subscribes db) subscribe 0 |} = db)
    by (destruct db; reflexivity).
  rewrite E in H. split; [exact H|].
  split; [apply CounterFacts.counter_walk_nonneg; lia|].
  intros H0. rewrite H, H0. now rewrite E.
Qed.

Lemma subscription_counter_walk_witness :
  apply_ops (map (op_of title_603) [true; true; false; true; false; false; false])
    db_two_plugins
  = Ok db_two_plugins.
Proof.
  exact (proj2 (proj2 (subscription_counter_walk title_603 db_two_plugins
                         [true; true; false; true; false; false; false]
                         eq_refl)) eq_refl).
Defined.

(** X6: [n] reports of a title that had no row, followed by [m]
    completions, leave its row with the count [n - m] when [m < n], and
    give the database back exactly as it was when [m >= n]: completions
    beyond the reports are ignored. *)
Theorem reports_then_completions
    (subscribe : SubscribeStatistic) (db : Session) (n m : nat) :
  SubscribeStatistics.read (subscribes db)
    (mid_of subscribe) (season subscribe) = None ->
  ((m < n)%nat ->
   apply_ops (repeat (Add subscribe) n ++ repeat (Done subscribe) m) db
   = Ok {| plugins := plugins db;
           subscribes :=
             subscribes db
             ++ [SubscribeStatistics.mk
                   (SubscribeStatistics.next_id (subscribes db))
                   subscribe None (Z.of_nat n - Z.of_nat m)] |})
  /\ ((n <= m)%nat ->
      apply_ops (repeat (Add subscribe) n ++ repeat (Done subscribe) m) db
      = Ok db).
Proof.
  intros Habs.
  assert (Hops : repeat (Add subscribe) n ++ repeat (Done subscribe) m
                 = map (op_of subscribe) (repeat true n ++ repeat false m)).
  { rewrite map_app, !map_repeat. reflexivity. }
  assert (Hwalk : counter_walk (repeat true n ++ repeat false m) 0
                  = Z.max 0 (Z.of_nat n - Z.of_nat m)).
  { unfold counter_walk. rewrite fold_left_app.
    fold (counter_walk (repeat true n) 0). rewrite counter_walk_adds.
    fold (counter_walk (repeat false m) (0 + Z.of_nat n)).
    rewrite counter_walk_dones by lia. f_equal; lia. }
  pose proof (apply_ops_walk subscribe db (repeat true n ++ repeat false m)
                Habs 0 ltac:(lia)) as H.
  assert (E : {| plugins := plugins db;
                 subscribes := table_with (subscribes db) subscribe 0 |} = db)
    by (destruct db; reflexivity).
  rewrite E, Hwalk in H. rewrite Hops, H. split; intros Hnm.
  - unfold table_with.
    replace (Z.max 0 (Z.of_nat n - Z.of_nat m) <=? 0) with false
      by (symmetry; apply Z.leb_gt; lia).
    replace (Z.max 0 (Z.of_nat n - Z.of_nat m))
      with (Z.of_nat n - Z.of_nat m) by lia.
    reflexivity.
  - replace (Z.max 0 (Z.of_nat n - Z.of_nat m)) with 0 by lia.
    now rewrite E.
Qed.

Lemma reports_then_completions_witness :
  apply_ops (repeat (Add title_603) 3 ++ repeat (Done title_603) 5)
    db_two_plugins
  = Ok db_two_plugins
  /\ apply_ops (repeat (Add title_603) 3 ++ repeat (Done title_603) 1)
       db_two_plugins
     = Ok {| plugins := plugins db_two_plugins;
             subscribes := [SubscribeStatistics.mk 1 title_603 None 2] |}.
Proof.
  split.
  - exact (proj2 (reports_then_completions title_603 db_two_plugins 3 5
                    eq_refl) ltac:(lia)).
  - exact (proj1 (reports_then_completions title_603 db_two_plugins 3 1
                    eq_refl) ltac:(lia)).
Defined.

(** ** Reports of different titles do not meet *)

Module FrameFacts.

Import SubscribeStatistics.

Lemma ids_increasing_keys (tb : table) :
  forall lo, ids_increasing lo tb -> keys_increasing id lo tb.
Proof.
  induction tb as [|a tl IH]; intros lo; simpl; [tauto|].
  intros [H1 H2]. split; [exact H1 | now apply IH].
Qed.

Lemma find_filter_keep {A} (f keep : A -> bool) (l : Datatypes.list A) :
  (forall a, In a l -> f a = true -> keep a = true) ->
  find f (filter keep l) = find f l.
Proof.
  induction l as [|a l IH]; intros H; simpl; [reflexivity|].
  destruct (keep a) eqn:Hk; simpl.
  - destruct (f a); [reflexivity|]. apply IH. intros x Hx. apply H. now right.
  - destruct (f a) eqn:Hf.
    + rewrite (H a (or_introl eq_refl) Hf) in Hk. discriminate.
    + apply IH. intros x Hx. apply H. now right.
Qed.

Lemma has_identity_matches (mid : option media_id) (s : option Z) (r : t) :
  matches mid s r = has_identity mid s (attrs r).
Proof. reflexivity. Qed.

Lemma has_identity_eq (mid : option media_id) (s : option Z)
    (p : SubscribeStatistic) :
  has_identity mid s p = true <-> mid_of p = mid /\ season p = s.
Proof.
  unfold has_identity. rewrite andb_true_iff.
  rewrite (SubscribeFacts.opt_eqb_eq media_id_eqb)
    by apply SubscribeFacts.media_id_eqb_eq.
  rewrite (SubscribeFacts.opt_eqb_eq Z.eqb) by apply Z.eqb_eq.
  reflexivity.
Qed.

(** A row of another identity has another primary key than [r]. *)
Lemma other_identity_other_id (tb : table) (mid : option media_id)
    (s : option Z) (r a : t) :
  ids_increasing 0 tb -> In r tb -> In a tb ->
  matches mid s r = false -> matches mid s a = true ->
  (id a =? id r) = false.
Proof.
  intros Hid Hr Ha Hmr Hma. apply Z.eqb_neq. intros E.
  pose proof (keys_increasing_inj id tb 0 a r (ids_increasing_keys _ _ Hid)
                Ha Hr E) as ->.
  rewrite Hma in Hmr. discriminate.
Qed.

Lemma read_update_other (tb : table) (mid : option media_id) (s : option Z)
    (r : t) (c : Z) :
  ids_increasing 0 tb -> In r tb -> matches mid s r = false ->
  read (update r c tb) mid s = read tb mid s.
Proof.
  intros Hid Hr Hmr. unfold read, update. rewrite find_map_stable.
  - destruct (find (matches mid s) tb) as [a|] eqn:Ha; [|reflexivity].
    apply find_some in Ha. destruct Ha as [Hin Hma]. simpl.
    now rewrite (other_identity_other_id tb mid s r a Hid Hr Hin Hmr Hma).
  - intros a. destruct (id a =? id r); reflexivity.
Qed.

Lemma read_delete_other (tb : table) (mid : option media_id) (s : option Z)
    (r : t) :
  ids_increasing 0 tb -> In r tb -> matches mid s r = false ->
  read (delete (id r) tb) mid s = read tb mid s.
Proof.
  intros Hid Hr Hmr. unfold read, delete. apply find_filter_keep.
  intros a Hin Hma.
  now rewrite (other_identity_other_id tb mid s r a Hid Hr Hin Hmr Hma).
Qed.

Lemma read_create_other (tb : table) (mid : option media_id) (s : option Z)
    (p : SubscribeStatistic) (c : Z) :
  has_identity mid s p = false ->
  read (create p c tb) mid s = read tb mid s.
Proof.
  intros Hp. unfold read, create. rewrite find_snoc.
  destruct (find (matches mid s) tb); [reflexivity|].
  rewrite has_identity_matches. cbn [attrs]. now rewrite Hp.
Qed.

(** The row found for a body has the identity of the body. *)
Lemma found_row_identity (tb : table) (p : SubscribeStatistic) (r : t)
    (mid : option media_id) (s : option Z) :
  read tb (mid_of p) (season p) = Some r ->
  has_identity mid s p = false ->
  In r tb /\ matches mid s r = false.
Proof.
  intros Hr Hp. apply SubscribeFacts.read_found in Hr.
  destruct Hr as (Hin & Hm & Hs). split; [exact Hin|].
  rewrite has_identity_matches. unfold has_identity in *.
  now rewrite Hm, Hs.
Qed.

End FrameFacts.

(** X7: a report or a completion of one title leaves every other title
    alone: for an identity the body does not resolve to, the lookup finds
    the same row, with the same count and fields, before and after, and
    the plugin table is untouched. *)
Theorem subscription_leaves_other_titles
    (subscribe : SubscribeStatistic) (add : bool) (db : Session)
    (mid : option media_id) (s : option Z) :
  well_formed db ->
  has_identity mid s subscribe = false ->
  exists db',
    apply_op (op_of subscribe add) db = Ok (success, db')
    /\ SubscribeStatistics.read (subscribes db') mid s
       = SubscribeStatistics.read (subscribes db) mid s
    /\ plugins db' = plugins db.
Proof.
  intros [Hid _] Hp.
  destruct add; simpl; [unfold subscribe_add | unfold subscribe_done];
    destruct (SubscribeStatistics.read (subscribes db)
                (mid_of subscribe) (season subscribe)) as [r|] eqn:Hr.
  - destruct (FrameFacts.found_row_identity _ _ _ mid s Hr Hp) as [Hin Hm].
    eexists. split; [reflexivity|]. split; [|reflexivity].
    now apply FrameFacts.read_update_other.
  - eexists. split; [reflexivity|]. split; [|reflexivity].
    now apply FrameFacts.read_create_other.
  - destruct (FrameFacts.found_row_identity _ _ _ mid s Hr Hp) as [Hin Hm].
    destruct (SubscribeStatistics.count r <=? 1);
      (eexists; split; [reflexivity|]; split; [|reflexivity]).
    + now apply FrameFacts.read_delete_other.
    + now apply FrameFacts.read_update_other.
  - exists db. repeat split.
Qed.

Lemma subscription_leaves_other_titles_witness :
  well_formed db_603
  /\ exists db',
      apply_op (op_of title_douban true) db_603 = Ok (success, db')
      /\ SubscribeStatistics.read (subscribes db') (Some (MidInt 603)) (Some 1)
         = Some (SubscribeStatistics.mk 1 title_603 None 1).
Proof.
  assert (Hwf : well_formed db_603).
  { split; simpl; [split; [lia | exact I] | split; [reflexivity | exact I]]. }
  split; [exact Hwf|].
  destruct (subscription_leaves_other_titles title_douban true db_603
              (Some (MidInt 603)) (Some 1) Hwf eq_refl)
    as (db' & Hrun & Hread & _).
  exists db'. split; [exact Hrun | exact Hread].
Defined.

(** ** Batches of subscription reports *)

Lemma subscribe_add_ok (p : SubscribeStatistic) (db : Session) :
  subscribe_add p db = Ok (success, add_db p db).
Proof.
  unfold add_db, subscribe_add.
  destruct (SubscribeStatistics.read (subscribes db) (mid_of p) (season p));
    reflexivity.
Qed.

Lemma subscribe_report_ok (subs : list SubscribeStatistic) (db : Session) :
  subscribe_report subs db = Ok (success, report_db subs db).
Proof.
  revert db. induction subs as [|p rest IH]; intros db; simpl.
  - reflexivity.
  - rewrite subscribe_add_ok. simpl. apply IH.
Qed.

Lemma well_formed_add (p : SubscribeStatistic) (db : Session) :
  well_formed db -> well_formed (add_db p db).
Proof.
  intros Hwf.
  destruct (TableInvariants.well_formed_apply_op (Add p) db Hwf)
    as (v & db' & Hrun & Hwf').
  simpl in Hrun. unfold add_db. now rewrite Hrun.
Qed.

Lemma plugins_add (p : SubscribeStatistic) (db : Session) :
  plugins (add_db p db) = plugins db.
Proof.
  unfold add_db, subscribe_add.
  destruct (SubscribeStatistics.read (subscribes db) (mid_of p) (season p));
    reflexivity.
Qed.

(** A report adds one to the count of its own identity. *)
Lemma subscribe_count_add_same (p : SubscribeStatistic) (db : Session) :
  subscribe_count (mid_of p) (season p) (add_db p db)
  = Some (match subscribe_count (mid_of p) (season p) db with
          | Some c => c + 1
          | None => 1
          end).
Proof.
  unfold subscribe_count, add_db, subscribe_add.
  destruct (SubscribeStatistics.read (subscribes db) (mid_of p) (season p))
    as [r|] eqn:Hr; cbn [subscribes set_subscribes].
  - now rewrite (SubscribeFacts.read_update _ _ _ _ _ Hr).
  - now rewrite (SubscribeFacts.read_create _ _ _ Hr).
Qed.

Lemma subscribe_count_add_other (p : SubscribeStatistic) (db : Session)
    (mid : option media_id) (s : option Z) :
  well_formed db -> has_identity mid s p = false ->
  subscribe_count mid s (add_db p db) = subscribe_count mid s db.
Proof.
  intros [Hid _] Hp. unfold subscribe_count, add_db, subscribe_add.
  destruct (SubscribeStatistics.read (subscribes db) (mid_of p) (season p))
    as [r|] eqn:Hr; cbn [subscribes set_subscribes].
  - destruct (FrameFacts.found_row_identity _ _ _ mid s Hr Hp) as [Hin Hm].
    now rewrite FrameFacts.read_update_other.
  - now rewrite FrameFacts.read_create_other.
Qed.

Lemma subscribe_count_report (mid : option media_id) (s : option Z)
    (subs : list SubscribeStatistic) :
  forall db, well_formed db ->
    subscribe_count mid s (report_db subs db)
    = bumped (subscribe_count mid s db) (reports_of mid s subs).
Proof.
  induction subs as [|p rest IH]; intros db Hwf.
  - reflexivity.
  - change (report_db (p :: rest) db) with (report_db rest (add_db p db)).
    rewrite IH by now apply well_formed_add.
    unfold reports_of. cbn [filter].
    destruct (has_identity mid s p) eqn:Hp.
    + apply FrameFacts.has_identity_eq in Hp. destruct Hp as [<- <-].
      rewrite subscribe_count_add_same.
      cbn [List.length]. rewrite Nat2Z.inj_succ, <- Z.add_1_r.
      apply bumped_step. lia.
    + now rewrite subscribe_count_add_other.
Qed.

(** X8: a batch of subscription reports always succeeds, keeps the table
    well-formed and the plugin table untouched, and afterwards the count
    of every identity is its old count (0 when it had no row) plus the
    number of bodies in the batch that resolve to it; an identity no body
    resolves to keeps what it had. *)
Theorem subscribe_report_counts
    (subs : list SubscribeStatistic) (db : Session) :
  well_formed db ->
  exists db',
    subscribe_report subs db = Ok (success, db')
    /\ well_formed db'
    /\ plugins db' = plugins db
    /\ forall mid s,
        subscribe_count mid s db'
        = bumped (subscribe_count mid s db) (reports_of mid s subs).
Proof.
  intros Hwf. exists (report_db subs db).
  split; [apply subscribe_report_ok|]. split; [|split].
  - revert db Hwf. induction subs as [|p rest IH]; intros db Hwf; simpl;
      [exact Hwf|]. apply IH. now apply well_formed_add.
  - clear Hwf. revert db. induction subs as [|p rest IH]; intros db; simpl;
      [reflexivity|]. rewrite IH. apply plugins_add.
  - intros mid s. now apply subscribe_count_report.
Qed.

Lemma subscribe_report_counts_witness :
  well_formed db_603
  /\ exists db',
      subscribe_report [title_603_renamed; title_douban; title_603] db_603
      = Ok (success, db')
      /\ subscribe_count (Some (MidInt 603)) (Some 1) db' = Some 3
      /\ subscribe_count (Some (MidStr "1291561")) None db' = Some 1.
Proof.
  assert (Hwf : well_formed db_603).
  { split; simpl; [split; [lia | exact I] | split; [reflexivity | exact I]]. }
  split; [exact Hwf|].
  destruct (subscribe_report_counts
              [title_603_renamed; title_douban; title_603] db_603 Hwf)
    as (db' & Hrun & _ & _ & Hc).
  exists db'. split; [exact Hrun|].
  split; [exact (Hc (Some (MidInt 603)) (Some 1))
         | exact (Hc (Some (MidStr "1291561")) None)].
Defined.

(** ** Which catalog id names a title *)

Lemma two_reports_one_row (p q : SubscribeStatistic) (db : Session) :
  mid_of q = mid_of p -> season q = season p ->
  SubscribeStatistics.read (subscribes db) (mid_of p) (season p) = None ->
  subscribe_report [p; q] db
  = Ok (success,
        {| plugins := plugins db;
           subscribes :=
             subscribes db
             ++ [SubscribeStatistics.mk
                   (SubscribeStatistics.next_id (subscribes db)) p None 2] |}).
Proof.
  intros Hm Hs Habs. cbn [subscribe_report].
  unfold subscribe_add at 1. rewrite Habs. simpl bind.
  unfold subscribe_add. cbn [subscribes set_subscribes plugins].
  rewrite Hm, Hs. unfold SubscribeStatistics.create.
  rewrite (CounterFacts.read_last _ _ _ Habs).
  cbn [SubscribeStatistics.count]. rewrite CounterFacts.update_last.
  reflexivity.
Qed.

(** X9: the numeric catalog id names the title whenever it is there and
    not 0, and the string id is not looked at then; a numeric id of 0
    counts as missing.  So two reports of one season with the same
    non-zero [tmdbid], or with a [tmdbid] that is 0 or missing and the
    same [doubanid], are counted on one row, whatever else differs between
    them: a first and a second report of a title without a row leave one
    row with the count 2 and the fields of the first. *)
Theorem reports_meet_on_catalog_id (p q : SubscribeStatistic) (db : Session) :
  season q = season p ->
  SubscribeStatistics.read (subscribes db) (mid_of p) (season p) = None ->
  (exists n, n <> 0 /\ tmdbid p = Some n /\ tmdbid q = Some n)
  \/ ((tmdbid p = None \/ tmdbid p = Some 0)
      /\ (tmdbid q = None \/ tmdbid q = Some 0)
      /\ doubanid q = doubanid p) ->
  mid_of q = mid_of p
  /\ subscribe_report [p; q] db
     = Ok (success,
           {| plugins := plugins db;
              subscribes :=
                subscribes db
                ++ [SubscribeStatistics.mk
                      (SubscribeStatistics.next_id (subscribes db)) p None 2] |}).
Proof.
  intros Hs Habs Hid.
  assert (Hm : mid_of q = mid_of p).
  { unfold mid_of.
    destruct Hid as [(n & Hn & Hp & Hq) | (Hp & Hq & Hd)].
    - rewrite Hp, Hq.
      replace (n =? 0) with false by (symmetry; now apply Z.eqb_neq).
      reflexivity.
    - rewrite Hd. destruct Hp as [-> | ->], Hq as [-> | ->]; reflexivity. }
  split; [exact Hm | now apply two_reports_one_row].
Qed.


Lemma reports_meet_on_catalog_id_witness :
  subscribe_report [title_603; title_603_renamed] empty_db
  = Ok (success,
        {| plugins := [];
           subscribes := [SubscribeStatistics.mk 1 title_603 None 2] |}).
Proof.
  assert (Hid : (exists n, n <> 0 /\ tmdbid title_603 = Some n
                           /\ tmdbid title_603_renamed = Some n)
                \/ ((tmdbid title_603 = None \/ tmdbid title_603 = Some 0)
                    /\ (tmdbid title_603_renamed = None
                        \/ tmdbid title_603_renamed = Some 0)
                    /\ doubanid title_603_renamed = doubanid title_603)).
  { left. exists 603. split; [discriminate | split; reflexivity]. }
  destruct (reports_meet_on_catalog_id title_603 title_603_renamed empty_db
              eq_refl eq_refl Hid) as [_ Hrun].
  exact Hrun.
Defined.

(** ** The cache keys of the listing *)

Module KeyFacts.

Lemma str_inj (a b : Z) : str a = str b -> a = b.
Proof.
  unfold str. intros H. apply DecimalZ.to_int_inj.
  pose proof (NilEmpty.isi (Z.to_int a)) as Ha.
  pose proof (NilEmpty.isi (Z.to_int b)) as Hb.
  rewrite H in Ha. rewrite Ha in Hb. now injection Hb.
Qed.

Lemma uint_no_underscore (d : Decimal.uint) :
  has_char "_"%char (NilEmpty.string_of_uint d) = false.
Proof. induction d; simpl; auto. Qed.

(** The decimal form of an integer has no underscore. *)
Lemma str_no_underscore (n : Z) : has_char "_"%char (str n) = false.
Proof.
  unfold str. destruct (Z.to_int n); simpl; apply uint_no_underscore.
Qed.

(** A string is cut in one way only at its last underscore. *)
Lemma cut_at_last_underscore (a b x y : string) :
  has_char "_"%char x = false -> has_char "_"%char y = false ->
  (a ++ "_" ++ x = b ++ "_" ++ y)%string -> a = b /\ x = y.
Proof.
  intros Hx Hy. revert b. induction a as [|c a IH]; intros [|c' b] H; simpl in H.
  - injection H as H. now split.
  - injection H as Hc Hr. subst x.
    exfalso. clear -Hx. induction b as [|c b IHb]; simpl in Hx.
    + discriminate.
    + apply orb_false_iff in Hx. tauto.
  - injection H as Hc Hr. subst y.
    exfalso. clear -Hy. induction a as [|c a IHa]; simpl in Hy.
    + discriminate.
    + apply orb_false_iff in Hy. tauto.
  - injection H as Hc Hr. subst c'.
    destruct (IH b Hr) as [-> ->]. now split.
Qed.

Lemma append_assoc (a b c : string) :
  (a ++ (b ++ c) = (a ++ b) ++ c)%string.
Proof. induction a; simpl; [reflexivity | now f_equal]. Qed.

Lemma append_inj_l (a x y : string) : (a ++ x = a ++ y)%string -> x = y.
Proof. induction a; simpl; intros H; [exact H | injection H; auto]. Qed.

Lemma regroup (s p r : string) :
  (s ++ "_" ++ p ++ r = (s ++ "_" ++ p) ++ r)%string.
Proof. now rewrite (append_assoc s), <- append_assoc, <- append_assoc. Qed.

End KeyFacts.

(** X10: two listing requests share a cache entry only when they ask for
    the same thing: [cache_key] is one-to-one in the type, the page and
    the page size, whatever underscores the type has; and no listing key
    is the key ["plugin"] of the plugin statistic. *)
Theorem cache_key_injective
    (stype stype' : string) (page page' count count' : Z) :
  cache_key stype page count <> "plugin"
  /\ (cache_key stype page count = cache_key stype' page' count' ->
      stype = stype' /\ page = page' /\ count = count').
Proof.
  split; [unfold cache_key; simpl; discriminate|].
  unfold cache_key. intros H. apply KeyFacts.append_inj_l in H.
  rewrite (KeyFacts.regroup stype (str page)),
    (KeyFacts.regroup stype' (str page')) in H.
  destruct (KeyFacts.cut_at_last_underscore _ _ _ _
              (KeyFacts.str_no_underscore count)
              (KeyFacts.str_no_underscore count') H) as [H1 Hc].
  destruct (KeyFacts.cut_at_last_underscore _ _ _ _
              (KeyFacts.str_no_underscore page)
              (KeyFacts.str_no_underscore page') H1) as [Hs Hp].
  split; [exact Hs|].
  split; [now apply KeyFacts.str_inj | now apply KeyFacts.str_inj].
Qed.

Lemma cache_key_injective_witness :
  cache_key "tv_1" 2 30 = "subscribe_tv_1_2_30"
  /\ ("tv_1" = "tv_1" /\ 2 = 2 /\ 30 = 30).
Proof.
  split; [reflexivity|].
  exact (proj2 (cache_key_injective "tv_1" "tv_1" 2 2 30 30) eq_refl).
Defined.

(** ** What the plugin statistic answers *)

Module DictFacts.

Lemma dict_get_set_same (k : string) (v : pyval) (d : list (string * pyval)) :
  dict_get k (dict_set k v d) = Some v.
Proof.
  unfold dict_get. induction d as [|[k' v'] d IH]; simpl.
  - now rewrite String.eqb_refl.
  - destruct (String.eqb k' k) eqn:E; simpl.
    + now rewrite String.eqb_refl.
    + rewrite E. exact IH.
Qed.

Lemma dict_get_set_other (k k' : string) (v : pyval)
    (d : list (string * pyval)) :
  k' <> k -> dict_get k (dict_set k' v d) = dict_get k d.
Proof.
  intros Hne. apply String.eqb_neq in Hne. unfold dict_get.
  induction d as [|[k0 v0] d IH]; simpl.
  - now rewrite Hne.
  - destruct (String.eqb k0 k') eqn:E; simpl.
    + apply String.eqb_eq in E. subst k0. now rewrite Hne.
    + destruct (String.eqb k0 k); [reflexivity | exact IH].
Qed.

Lemma dict_set_not_empty (k : string) (v : pyval) (d : list (string * pyval)) :
  dict_set k v d <> [].
Proof. destruct d as [|[k' v'] d]; simpl; [|destruct (String.eqb k' k)]; discriminate. Qed.

Lemma collect_not_empty (rows : PluginStatistics.table) :
  forall acc, acc <> [] -> collect rows acc <> [].
Proof.
  induction rows as [|a tl IH]; intros acc Hacc; simpl; [exact Hacc|].
  apply IH. apply dict_set_not_empty.
Qed.

Lemma dict_get_collect (pid : string) (rows : PluginStatistics.table) :
  NoDup (map PluginStatistics.plugin_id rows) ->
  forall acc,
    dict_get pid (collect rows acc)
    = match PluginStatistics.read rows pid with
      | Some r => Some (PInt (PluginStatistics.count r))
      | None => dict_get pid acc
      end.
Proof.
  induction rows as [|a tl IH]; intros Hnd acc; [reflexivity|].
  simpl in Hnd. apply NoDup_cons_iff in Hnd. destruct Hnd as [Hnotin Hnd].
  change (collect (a :: tl) acc)
    with (collect tl (dict_set (PluginStatistics.plugin_id a)
                        (PInt (PluginStatistics.count a)) acc)).
  rewrite (IH Hnd). unfold PluginStatistics.read. simpl find.
  destruct (String.eqb (PluginStatistics.plugin_id a) pid) eqn:E.
  - apply String.eqb_eq in E. subst pid.
    destruct (find _ tl) as [r|] eqn:Hr.
    + apply find_some in Hr. destruct Hr as [Hin Hp].
      apply String.eqb_eq in Hp. exfalso. apply Hnotin. rewrite <- Hp.
      now apply in_map.
    + apply dict_get_set_same.
  - destruct (find _ tl); [reflexivity|].
    apply dict_get_set_other. now apply String.eqb_neq.
Qed.

End DictFacts.

Lemma plugin_dict_truthy (rows : PluginStatistics.table) :
  rows <> [] -> truthy (plugin_dict rows) = true.
Proof.
  intros Hrows. destruct rows as [|a tl]; [contradiction|].
  unfold plugin_dict. simpl fold_left.
  pose proof (DictFacts.collect_not_empty tl
                (dict_set (PluginStatistics.plugin_id a)
                   (PInt (PluginStatistics.count a)) [])
                (DictFacts.dict_set_not_empty _ _ _)) as H.
  unfold collect in H. simpl.
  destruct (fold_left _ tl _); [contradiction | reflexivity].
Qed.

(** X11: a plugin statistic request that finds nothing to serve in the
    cache answers with the database as it is now: a dict that gives, for
    every plugin with a row, its stored count, and that has no key for a
    plugin without a row. *)
Theorem plugin_statistic_lists_counts
    (db : Session) (t1 t2 t3 : Z) (c : Cache.t) :
  plugins_well_formed db ->
  truthy (fst (Cache.get "plugin" t1 c)) = false ->
  t3 < t2 + Cache.ttl c ->
  exists d c',
    plugin_statistic db t1 t2 t3 c = (Ok (PDict d), c')
    /\ forall pid, dict_get pid d = option_map PInt (stored_count pid db).
Proof.
  intros (_ & Hnd & _) Hmiss Ht.
  rewrite plugin_statistic_read_through.
  rewrite (read_through_miss _ _ _ _ _ _ _ Hmiss Ht).
  unfold miss_outcome, plugin_loader, forget_state, plugin_dict.
  cbn [fst snd]. eexists _, _. split; [reflexivity|].
  intros pid. unfold PluginStatistics.list.
  pose proof (DictFacts.dict_get_collect pid (plugins db) Hnd []) as H.
  unfold collect in H. rewrite H. unfold stored_count.
  destruct (PluginStatistics.read (plugins db) pid); reflexivity.
Qed.

Lemma plugin_statistic_lists_counts_witness :
  plugins_well_formed db_two_plugins
  /\ exists d c',
      plugin_statistic db_two_plugins 0 0 0 StatisticCache = (Ok (PDict d), c')
      /\ dict_get "a" d = Some (PInt 3)
      /\ dict_get "z" d = None.
Proof.
  split; [exact plugins_well_formed_two|].
  destruct (plugin_statistic_lists_counts db_two_plugins 0 0 0 StatisticCache
              plugins_well_formed_two eq_refl ltac:(simpl; lia))
    as (d & c' & Hrun & Hget).
  exists d, c'. split; [exact Hrun|].
  split; [exact (Hget "a") | exact (Hget "z")].
Defined.

(** ** The size of the cache *)

Module BoundFacts.

Import Cache.

Lemma nodup_keys_filter (f : entry -> bool) (es : list entry) :
  NoDup (map fst es) -> NoDup (map fst (filter f es)).
Proof.
  induction es as [|a es IH]; simpl; [auto|].
  intros H. apply NoDup_cons_iff in H. destruct H as [Hnotin Hnd].
  destruct (f a); simpl; [|now apply IH].
  constructor; [|now apply IH].
  intros Hin. apply Hnotin. apply in_map_iff in Hin.
  destruct Hin as (e & He & Hein). apply filter_In in Hein.
  rewrite <- He. apply in_map. tauto.
Qed.

Lemma nodup_keys_pop (m : Z) (es : list entry) :
  NoDup (map fst es) -> NoDup (map fst (pop_while_full m es)).
Proof.
  induction es as [|a es IH]; simpl; [auto|].
  intros H. destruct (full m (a :: es)); [|exact H].
  apply IH. simpl in H. now apply NoDup_cons_iff in H.
Qed.

(** The loop of [evict] ends with room for one more entry. *)
Lemma pop_makes_room (m : Z) (es : list entry) :
  0 < m -> Z.of_nat (List.length (pop_while_full m es)) < m.
Proof.
  intros Hm. induction es as [|a es IH]; simpl; [lia|].
  destruct (full m (a :: es)) eqn:E; [exact IH|].
  unfold full in E. apply andb_false_iff in E. destruct E as [E|E].
  - apply Z.ltb_ge in E. lia.
  - apply Z.leb_gt in E. exact E.
Qed.

Lemma length_remove_le (k : string) (es : list entry) :
  (List.length (remove k es) <= List.length es)%nat.
Proof. unfold remove. apply filter_length_le. Qed.

Lemma length_remove_found (k : string) (es : list entry)
    (x : pyval * option Z) :
  lookup k es = Some x ->
  (List.length (remove k es) < List.length es)%nat.
Proof.
  unfold lookup, remove. induction es as [|a es IH]; [discriminate|].
  cbn [find filter]. destruct (String.eqb (fst a) k) eqn:E; cbn [negb].
  - intros _. pose proof (filter_length_le
                            (fun e => negb (String.eqb (fst e) k)) es) as Hle.
    cbn [List.length]. apply Nat.lt_succ_r. exact Hle.
  - intros H. specialize (IH H). cbn [List.length].
    apply -> Nat.succ_lt_mono. exact IH.
Qed.

Lemma not_in_remove (k : string) (es : list entry) :
  ~ In k (map fst (remove k es)).
Proof.
  unfold remove. intros Hin. apply in_map_iff in Hin.
  destruct Hin as (e & He & Hein). apply filter_In in Hein.
  destruct Hein as [_ Hneg]. rewrite He, String.eqb_refl in Hneg.
  discriminate.
Qed.

Lemma nodup_snoc (k : string) (l : list string) :
  NoDup l -> ~ In k l -> NoDup (l ++ [k]).
Proof.
  intros Hnd Hk. apply NoDup_app; [exact Hnd | repeat constructor; simpl; tauto|].
  intros x Hx [<-|[]]. contradiction.
Qed.

Lemma get_live_bounded (k : string) (now : Z) (c : t) :
  cache_bounded c -> cache_bounded (snd (get_live k now c)).
Proof.
  intros [Hnd Hlen]. unfold get_live.
  destruct (lookup k (entries c)) as [[v e]|]; [|now split].
  destruct (expired_at now e); [|now split].
  split; unfold keys, with_entries; cbn [snd entries maxsize].
  - now apply nodup_keys_filter.
  - pose proof (length_remove_le k (entries c)). lia.
Qed.

Lemma get_bounded (k : string) (now : Z) (c : t) :
  cache_bounded c -> cache_bounded (snd (get k now c)).
Proof.
  intros H. pose proof (get_live_bounded k now c H) as H'. unfold get.
  destruct (get_live k now c); exact H'.
Qed.

Lemma get_maxsize (k : string) (now : Z) (c : t) :
  maxsize (snd (get k now c)) = maxsize c.
Proof.
  unfold get. pose proof (CacheFacts.get_live_ttl k now c) as [_ H].
  destruct (get_live k now c); exact H.
Qed.

Lemma set_maxsize (k : string) (v : pyval) (now : Z) (c : t) :
  maxsize (set k v now c) = maxsize c.
Proof.
  unfold set. pose proof (CacheFacts.get_live_ttl k now c) as [_ H].
  destruct (get_live k now c) as [[x|] c1]; simpl in *; exact H.
Qed.

(** A [set] never takes the cache over its [maxsize]. *)
Lemma set_bounded (k : string) (v : pyval) (now : Z) (c : t) :
  0 < maxsize c -> cache_bounded c -> cache_bounded (set k v now c).
Proof.
  intros Hm Hb. unfold set, get_live.
  destruct (lookup k (entries c)) as [[x e]|] eqn:Hl.
  - destruct (expired_at now e).
    + unfold evict. split; unfold keys, with_entries; cbn [entries maxsize].
      * rewrite map_app. apply nodup_snoc; [|apply not_in_remove].
        apply nodup_keys_filter, nodup_keys_pop, nodup_keys_filter,
          nodup_keys_filter. exact (proj1 Hb).
      * rewrite length_app. cbn [List.length].
        pose proof (length_remove_le k
                      (pop_while_full (maxsize c)
                         (delete_expired now (remove k (entries c))))).
        pose proof (pop_makes_room (maxsize c)
                      (delete_expired now (remove k (entries c))) Hm).
        lia.
    + destruct Hb as [Hnd Hlen].
      split; unfold keys, with_entries; cbn [entries maxsize].
      * rewrite map_app. apply nodup_snoc; [|apply not_in_remove].
        now apply nodup_keys_filter.
      * rewrite length_app. cbn [List.length].
        pose proof (length_remove_found k (entries c) _ Hl). lia.
  - unfold evict. split; unfold keys, with_entries; cbn [entries maxsize].
    + rewrite map_app. apply nodup_snoc; [|apply not_in_remove].
      apply nodup_keys_filter, nodup_keys_pop, nodup_keys_filter.
      exact (proj1 Hb).
    + rewrite length_app. cbn [List.length].
      pose proof (length_remove_le k
                    (pop_while_full (maxsize c)
                       (delete_expired now (entries c)))).
      pose proof (pop_makes_room (maxsize c)
                    (delete_expired now (entries c)) Hm).
      lia.
Qed.

End BoundFacts.

Lemma read_through_bounded {S : Type} (key : string)
    (loader : S -> result pyval * S) (t1 t2 t3 : Z) (s : S) (c : Cache.t) :
  0 < Cache.maxsize c -> cache_bounded c ->
  cache_bounded (snd (read_through key loader t1 t2 t3 s c))
  /\ Cache.maxsize (snd (read_through key loader t1 t2 t3 s c))
     = Cache.maxsize c.
Proof.
  intros Hm Hb. unfold read_through.
  pose proof (BoundFacts.get_bounded key t1 c Hb) as Hb1.
  pose proof (BoundFacts.get_maxsize key t1 c) as Hm1.
  destruct (Cache.get key t1 c) as [v c1]. cbn [snd] in Hb1, Hm1.
  destruct (negb (truthy v)).
  - destruct (loader s) as [[x|e] s']; [|now split].
    assert (Hb2 : cache_bounded (Cache.set key x t2 c1))
      by (apply BoundFacts.set_bounded; [lia | exact Hb1]).
    pose proof (BoundFacts.get_bounded key t3 _ Hb2) as Hb3.
    pose proof (BoundFacts.get_maxsize key t3 (Cache.set key x t2 c1)) as Hm3.
    rewrite BoundFacts.set_maxsize in Hm3.
    destruct (Cache.get key t3 (Cache.set key x t2 c1)) as [v' c3].
    cbn [snd] in *. split; [exact Hb3 | lia].
  - pose proof (BoundFacts.get_bounded key t3 c1 Hb1) as Hb3.
    pose proof (BoundFacts.get_maxsize key t3 c1) as Hm3.
    destruct (Cache.get key t3 c1) as [v' c3].
    cbn [snd] in *. split; [exact Hb3 | lia].
Qed.

(** X13: the statistic requests never take the cache over its size.  A
    cache with a positive [maxsize] that holds no key twice and at most
    [maxsize] entries, as the empty [StatisticCache] with its 100 does, is
    again such a cache, with the same [maxsize], after any plugin
    statistic or listing request, whether it was served from the cache,
    loaded or failed. *)
Theorem statistic_cache_stays_bounded
    (db : Session) (stype : string) (page count : Z) (t1 t2 t3 : Z)
    (c : Cache.t) :
  0 < Cache.maxsize c -> cache_bounded c ->
  (cache_bounded (snd (plugin_statistic db t1 t2 t3 c))
   /\ Cache.maxsize (snd (plugin_statistic db t1 t2 t3 c)) = Cache.maxsize c)
  /\ (cache_bounded (snd (subscribe_statistic stype page count db t1 t2 t3 c))
      /\ Cache.maxsize (snd (subscribe_statistic stype page count db t1 t2 t3 c))
         = Cache.maxsize c).
Proof.
  intros Hm Hb. split.
  - rewrite plugin_statistic_read_through. unfold forget_state. cbn [snd].
    now apply read_through_bounded.
  - rewrite subscribe_statistic_read_through. unfold forget_state. cbn [snd].
    now apply read_through_bounded.
Qed.

Lemma statistic_cache_stays_bounded_witness :
  cache_bounded StatisticCache
  /\ cache_bounded
       (snd (subscribe_statistic "tv" 1 30 db_603 5 5 5
               (snd (plugin_statistic db_two_plugins 0 0 0 StatisticCache)))).
Proof.
  assert (H0 : cache_bounded StatisticCache)
    by (split; [constructor | simpl; lia]).
  split; [exact H0|].
  destruct (statistic_cache_stays_bounded db_two_plugins "tv" 1 30 0 0 0
              StatisticCache ltac:(simpl; lia) H0) as [[Hb Hm] _].
  refine (proj1 (proj2 (statistic_cache_stays_bounded db_603 "tv" 1 30 5 5 5
                          _ _ Hb))).
  rewrite Hm. simpl. lia.
Defined.

(** ** Cached statistics and later writes *)

Module StaleFacts.

Import Cache.

Lemma find_filter_found {A} (f keep : A -> bool) (l : list A) (a : A) :
  find f l = Some a -> keep a = true -> find f (filter keep l) = Some a.
Proof.
  induction l as [|x l IH]; simpl; [discriminate|].
  destruct (f x) eqn:Hf.
  - intros [= ->] Hk. rewrite Hk. simpl. now rewrite Hf.
  - intros H Hk. destruct (keep x); simpl; [rewrite Hf|]; auto.
Qed.

Lemma lookup_found (k0 : string) (es : list entry) (x : pyval * option Z) :
  lookup k0 es = Some x ->
  find (fun e => String.eqb (fst e) k0) es = Some (k0, x).
Proof.
  unfold lookup.
  destruct (find (fun e => String.eqb (fst e) k0) es) as [[k' y]|] eqn:Hf;
    simpl; [|discriminate].
  intros [= ->]. apply find_some in Hf. destruct Hf as [_ Hk].
  apply String.eqb_eq in Hk. simpl in Hk. now subst k'.
Qed.

Lemma lookup_filter_found (k0 : string) (keep : entry -> bool)
    (es : list entry) (x : pyval * option Z) :
  lookup k0 es = Some x -> keep (k0, x) = true ->
  lookup k0 (filter keep es) = Some x.
Proof.
  intros Hl Hk. apply lookup_found in Hl. unfold lookup.
  change (Some x) with (option_map snd (Some (k0, x))). f_equal.
  now apply find_filter_found.
Qed.

Lemma lookup_remove_found (k k0 : string) (es : list entry)
    (x : pyval * option Z) :
  k <> k0 -> lookup k0 es = Some x -> lookup k0 (remove k es) = Some x.
Proof.
  intros Hne Hl. unfold remove. apply lookup_filter_found; [exact Hl|].
  simpl. apply negb_true_iff, String.eqb_neq. congruence.
Qed.

Lemma lookup_snoc_found (k k0 : string) (es : list entry)
    (x y : pyval * option Z) :
  lookup k0 es = Some x -> lookup k0 (es ++ [(k, y)]) = Some x.
Proof.
  intros Hl. apply lookup_found in Hl. unfold lookup.
  change (Some x) with (option_map snd (Some (k0, x))). f_equal.
  rewrite find_snoc.
  destruct (find (fun e => String.eqb (fst e) k0) es); [exact Hl | discriminate].
Qed.

(** A [get] of one key leaves the entry of another. *)
Lemma get_other (k k0 : string) (t : Z) (c : Cache.t) (x : pyval * option Z)
  : k <> k0 -> lookup k0 (entries c) = Some x ->
    lookup k0 (entries (snd (get k t c))) = Some x
    /\ maxsize (snd (get k t c)) = maxsize c
    /\ ttl (snd (get k t c)) = ttl c
    /\ (List.length (entries (snd (get k t c)))
        <= List.length (entries c))%nat.
Proof.
  intros Hne Hl. unfold get, get_live.
  destruct (lookup k (entries c)) as [[v e]|]; [|now repeat split].
  destruct (expired_at t e); [|now repeat split].
  cbn [snd entries with_entries maxsize ttl]. repeat split.
  - now apply lookup_remove_found.
  - unfold remove. apply filter_length_le.
Qed.

(** A [set] of one key into a cache with room leaves the live entry of
    another. *)
Lemma set_other (k k0 : string) (y v : pyval) (t e : Z) (c : Cache.t) :
  k <> k0 -> lookup k0 (entries c) = Some (v, Some e) -> t < e ->
  Z.of_nat (List.length (entries c)) < maxsize c ->
  lookup k0 (entries (set k y t c)) = Some (v, Some e)
  /\ maxsize (set k y t c) = maxsize c
  /\ ttl (set k y t c) = ttl c
  /\ (List.length (entries (set k y t c))
      <= S (List.length (entries c)))%nat.
Proof.
  intros Hne Hl Ht Hroom.
  assert (Hkeep : negb (expired_at t (snd (snd (k0, (v, Some e))))) = true)
    by (simpl; apply negb_true_iff, Z.leb_gt; lia).
  assert (Hswept : forall es',
             lookup k0 es' = Some (v, Some e) ->
             (List.length es' <= List.length (entries c))%nat ->
             pop_while_full (maxsize c) (delete_expired t es')
             = delete_expired t es'
             /\ lookup k0 (delete_expired t es') = Some (v, Some e)
             /\ (List.length (delete_expired t es')
                 <= List.length (entries c))%nat).
  { intros es' Hl' Hlen.
    assert (Hf : (List.length (delete_expired t es') <= List.length es')%nat)
      by (unfold delete_expired; apply filter_length_le).
    split; [|split].
    - apply CapacityFacts.pop_while_full_room. lia.
    - unfold delete_expired. now apply lookup_filter_found.
    - lia. }
  assert (Hfin : forall es' new,
             lookup k0 es' = Some (v, Some e) ->
             (List.length es' <= List.length (entries c))%nat ->
             lookup k0 (remove k es' ++ [(k, new)]) = Some (v, Some e)
             /\ (List.length (remove k es' ++ [(k, new)])
                 <= S (List.length (entries c)))%nat).
  { intros es' new Hl' Hlen. split.
    - apply lookup_snoc_found. now apply lookup_remove_found.
    - rewrite length_app. cbn [List.length].
      assert (Hf : (List.length (remove k es') <= List.length es')%nat)
        by (unfold remove; apply filter_length_le).
      lia. }
  unfold set, get_live.
  destruct (lookup k (entries c)) as [[x ex]|].
  - destruct (expired_at t ex); unfold evict, with_entries;
      cbn [entries maxsize ttl].
    + assert (Hl1 : lookup k0 (remove k (entries c)) = Some (v, Some e))
        by now apply lookup_remove_found.
      assert (Hlen1 : (List.length (remove k (entries c))
                       <= List.length (entries c))%nat)
        by (unfold remove; apply filter_length_le).
      destruct (Hswept _ Hl1 Hlen1) as (Hpop & Hl2 & Hlen2).
      rewrite Hpop. destruct (Hfin _ (y, if 0 <? ttl c then Some (t + ttl c)
                                          else None) Hl2 Hlen2) as [H1 H2].
      now repeat split.
    + destruct (Hfin (entries c)
                  (y, if 0 <? ttl c then Some (t + ttl c) else None)
                  Hl (le_n _)) as [H1 H2].
      now repeat split.
  - unfold evict, with_entries. cbn [entries maxsize ttl].
    destruct (Hswept _ Hl (le_n _)) as (Hpop & Hl2 & Hlen2).
    rewrite Hpop. destruct (Hfin _ (y, if 0 <? ttl c then Some (t + ttl c)
                                        else None) Hl2 Hlen2) as [H1 H2].
    now repeat split.
Qed.

End StaleFacts.

Lemma cache_key_not_plugin (stype : string) (page count : Z) :
  cache_key stype page count <> "plugin".
Proof. unfold cache_key. simpl. discriminate. Qed.

(** A request under one key, in a cache with room, leaves the live entry
    of another key where it is. *)
Lemma read_through_keeps_other {S : Type} (key k0 : string)
    (loader : S -> result pyval * S) (t1 t2 t3 : Z) (s : S) (c : Cache.t)
    (v : pyval) (e : Z) :
  key <> k0 ->
  Cache.lookup k0 (Cache.entries c) = Some (v, Some e) ->
  t2 < e ->
  Z.of_nat (List.length (Cache.entries c)) < Cache.maxsize c ->
  let c' := snd (read_through key loader t1 t2 t3 s c) in
  Cache.lookup k0 (Cache.entries c') = Some (v, Some e)
  /\ Cache.maxsize c' = Cache.maxsize c
  /\ (List.length (Cache.entries c') <= Datatypes.S (List.length (Cache.entries c)))%nat.
Proof.
  intros Hne Hl Ht Hroom. unfold read_through.
  destruct (StaleFacts.get_other key k0 t1 c _ Hne Hl) as (Hl1 & Hm1 & _ & Hn1).
  destruct (Cache.get key t1 c) as [x c1]. cbn [snd] in Hl1, Hm1, Hn1.
  destruct (negb (truthy x)).
  - destruct (loader s) as [[y|err] s']; cbn [snd].
    + destruct (StaleFacts.set_other key k0 y v t2 e c1 Hne Hl1 Ht
                  ltac:(lia)) as (Hl2 & Hm2 & _ & Hn2).
      destruct (StaleFacts.get_other key k0 t3 _ _ Hne Hl2)
        as (Hl3 & Hm3 & _ & Hn3).
      destruct (Cache.get key t3 (Cache.set key y t2 c1)) as [x' c3].
      cbn [snd] in *. split; [exact Hl3|]. split; lia.
    + split; [exact Hl1|]. split; lia.
  - destruct (StaleFacts.get_other key k0 t3 c1 _ Hne Hl1)
      as (Hl3 & Hm3 & _ & Hn3).
    destruct (Cache.get key t3 c1) as [x' c3].
    cbn [snd] in *. split; [exact Hl3|]. split; lia.
Qed.

(** One statistic request made before the plugin entry expires, in a
    cache with room, leaves that entry where it is. *)
Lemma serve_keeps_plugin_entry (q : query) (c : Cache.t) (v : pyval) (e : Z) :
  truthy v = true ->
  Cache.lookup "plugin" (Cache.entries c) = Some (v, Some e) ->
  query_before e q ->
  Z.of_nat (List.length (Cache.entries c)) < Cache.maxsize c ->
  Cache.lookup "plugin" (Cache.entries (snd (serve c q))) = Some (v, Some e)
  /\ Cache.maxsize (snd (serve c q)) = Cache.maxsize c
  /\ (List.length (Cache.entries (snd (serve c q)))
      <= S (List.length (Cache.entries c)))%nat.
Proof.
  intros Hv Hl Hq Hroom.
  destruct q as [db t1 t2 t3 | stype page count db t1 t2 t3];
    simpl in Hq; destruct Hq as (H1 & H2 & H3); cbn [serve].
  - rewrite plugin_statistic_read_through.
    rewrite (read_through_hit "plugin" plugin_loader t1 t2 t3 db c v (Some e)
               Hl Hv);
      [| simpl; apply Z.leb_gt; lia | simpl; apply Z.leb_gt; lia].
    unfold forget_state. cbn [fst snd]. split; [exact Hl|]. split; lia.
  - rewrite subscribe_statistic_read_through. unfold forget_state. cbn [snd].
    apply read_through_keeps_other; auto.
    apply cache_key_not_plugin.
Qed.

Lemma serve_all_keeps_plugin_entry (v : pyval) (e : Z) (qs : list query) :
  truthy v = true ->
  forall c,
    Cache.lookup "plugin" (Cache.entries c) = Some (v, Some e) ->
    (forall q, In q qs -> query_before e q) ->
    Z.of_nat (List.length (Cache.entries c)) + Z.of_nat (List.length qs)
    <= Cache.maxsize c ->
    Cache.lookup "plugin" (Cache.entries (serve_all qs c)) = Some (v, Some e).
Proof.
  intros Hv. induction qs as [|q qs IH]; intros c Hl Hq Hroom; [exact Hl|].
  cbn [List.length] in Hroom.
  destruct (serve_keeps_plugin_entry q c v e Hv Hl (Hq q (or_introl eq_refl))
              ltac:(lia)) as (Hl1 & Hm1 & Hn1).
  change (serve_all (q :: qs) c) with (serve_all qs (snd (serve c q))).
  apply IH; [exact Hl1 | intros q' Hq'; apply Hq; now right | lia].
Qed.

(** X12: no write reaches a cached statistic while its entry is in the
    cache.  After a request that loaded the statistic of a database with
    at least one plugin at time [t2], and after any further statistic
    requests made before [t2 + ttl] for which the cache has room (the
    entries it holds after the load plus the number of these requests do
    not exceed [maxsize], so that none of them pushes the entry out), a
    plugin statistic request made before [t2 + ttl] returns the dict
    loaded then and leaves the cache as it is, whatever the database
    holds by then. *)
Theorem cached_statistic_ignores_writes
    (db db' : Session) (t1 t2 t3 t1' t2' t3' : Z) (c : Cache.t)
    (qs : list query) :
  0 < Cache.ttl c ->
  plugins db <> [] ->
  truthy (fst (Cache.get "plugin" t1 c)) = false ->
  t3 < t2 + Cache.ttl c ->
  (forall q, In q qs -> query_before (t2 + Cache.ttl c) q) ->
  Z.of_nat (List.length
              (Cache.entries (snd (plugin_statistic db t1 t2 t3 c))))
  + Z.of_nat (List.length qs) <= Cache.maxsize c ->
  t1' <= t3' < t2 + Cache.ttl c ->
  fst (plugin_statistic db t1 t2 t3 c) = Ok (plugin_dict (plugins db))
  /\ plugin_statistic db' t1' t2' t3'
       (serve_all qs (snd (plugin_statistic db t1 t2 t3 c)))
     = (Ok (plugin_dict (plugins db)),
        serve_all qs (snd (plugin_statistic db t1 t2 t3 c))).
Proof.
  intros Httl Hrows Hmiss Ht Hqs Hroom [H13 H3].
  pose proof (plugin_dict_truthy (plugins db) Hrows) as Hv.
  revert Hroom. rewrite (plugin_statistic_read_through db).
  rewrite (read_through_miss _ _ _ _ _ _ _ Hmiss Ht).
  unfold miss_outcome, plugin_loader, forget_state, PluginStatistics.list.
  cbn [fst snd]. intros Hroom. split; [reflexivity|].
  set (c1 := Cache.set "plugin" (plugin_dict (plugins db)) t2
               (snd (Cache.get "plugin" t1 c))) in *.
  assert (Hl1 : Cache.lookup "plugin" (Cache.entries c1)
                = Some (plugin_dict (plugins db), Some (t2 + Cache.ttl c))).
  { unfold c1. rewrite CacheFacts.set_lookup, CacheFacts.get_ttl.
    replace (0 <? Cache.ttl c) with true by (symmetry; apply Z.ltb_lt; lia).
    reflexivity. }
  assert (Hm1 : Cache.maxsize c1 = Cache.maxsize c).
  { unfold c1. rewrite BoundFacts.set_maxsize.
    apply BoundFacts.get_maxsize. }
  pose proof (serve_all_keeps_plugin_entry _ _ qs Hv c1 Hl1 Hqs
                ltac:(rewrite Hm1; exact Hroom)) as Hl2.
  rewrite plugin_statistic_read_through.
  rewrite (read_through_hit "plugin" plugin_loader t1' t2' t3' db' _
             (plugin_dict (plugins db)) (Some (t2 + Cache.ttl c)) Hl2 Hv);
    [reflexivity | simpl; apply Z.leb_gt; lia | simpl; apply Z.leb_gt; lia].
Qed.

Lemma cached_statistic_ignores_writes_witness :
  plugin_statistic (install_db "a" db_two_plugins) 100 100 100
    (serve_all [ListingQuery "tv" 1 30 db_603 5 5 5;
                PluginQuery (install_db "a" db_two_plugins) 6 6 6]
       (snd (plugin_statistic db_two_plugins 0 0 0 StatisticCache)))
  = (Ok (plugin_dict (plugins db_two_plugins)),
     serve_all [ListingQuery "tv" 1 30 db_603 5 5 5;
                PluginQuery (install_db "a" db_two_plugins) 6 6 6]
       (snd (plugin_statistic db_two_plugins 0 0 0 StatisticCache))).
Proof.
  refine (proj2 (cached_statistic_ignores_writes db_two_plugins
                   (install_db "a" db_two_plugins) 0 0 0 100 100 100
                   StatisticCache
                   [ListingQuery "tv" 1 30 db_603 5 5 5;
                    PluginQuery (install_db "a" db_two_plugins) 6 6 6]
                   _ _ eq_refl _ _ _ _)).
  - simpl; lia.
  - discriminate.
  - simpl; lia.
  - intros q [<-|[<-|[]]]; simpl; lia.
  - vm_compute. discriminate.
  - simpl; lia.
Defined.

(** ** Queries that fail *)

(** A request that found nothing to serve leaves nothing to serve. *)
Lemma get_again_falsy (key : string) (t t' : Z) (c : Cache.t) :
  truthy (fst (Cache.get key t c)) = false ->
  truthy (fst (Cache.get key t' (snd (Cache.get key t c)))) = false.
Proof.
  destruct (Cache.lookup key (Cache.entries c)) as [[v e]|] eqn:Hl.
  - destruct (Cache.expired_at t e) eqn:He.
    + rewrite (CacheFacts.get_stale _ _ _ _ _ Hl He). cbn [fst snd].
      intros _. rewrite CacheFacts.get_absent; [reflexivity|].
      cbn [Cache.entries Cache.with_entries]. apply CacheFacts.lookup_remove.
    + rewrite (CacheFacts.get_hit _ _ _ _ _ Hl He). cbn [fst snd].
      intros Hv. now apply (get_falsy key t' c v e).
  - rewrite (CacheFacts.get_absent _ _ _ Hl). cbn [fst snd].
    intros _. now rewrite (CacheFacts.get_absent _ _ _ Hl).
Qed.

(** X14: a query that fails is not cached.  When a request finds nothing
    to serve and its database query raises, the request raises the same
    error, nothing is stored under the key, and the next request for the
    key, whenever it comes, runs its query again. *)
Theorem failed_load_is_not_cached {S : Type} (key : string)
    (loader loader' : S -> result pyval * S) (t1 t2 t3 t1' t2' t3' : Z)
    (s s1 s2 : S) (e : error) (c : Cache.t) :
  truthy (fst (Cache.get key t1 c)) = false ->
  loader s = (Err e, s1) ->
  t3' < t2' + Cache.ttl c ->
  read_through key loader t1 t2 t3 s c
  = (Err e, s1, snd (Cache.get key t1 c))
  /\ read_through key loader' t1' t2' t3' s2 (snd (Cache.get key t1 c))
     = miss_outcome key loader' t1' t2' s2 (snd (Cache.get key t1 c)).
Proof.
  intros Hmiss Hload Ht. split.
  - unfold read_through. destruct (Cache.get key t1 c) as [v c1].
    cbn [fst snd] in *. rewrite Hmiss. simpl. now rewrite Hload.
  - apply read_through_miss.
    + now apply get_again_falsy.
    + now rewrite CacheFacts.get_ttl.
Qed.

Lemma failed_load_is_not_cached_witness :
  read_through "plugin" (fun n : nat => (Err PersistenceUnavailable, S n))
    0 0 0 0%nat StatisticCache
  = (Err PersistenceUnavailable, 1%nat, StatisticCache)
  /\ read_through "plugin" (counting_loader (PDict [("x", PInt 1)]))
       1 1 1 1%nat StatisticCache
     = (Ok (PDict [("x", PInt 1)]), 2%nat,
        Cache.set "plugin" (PDict [("x", PInt 1)]) 1 StatisticCache).
Proof.
  exact (failed_load_is_not_cached "plugin"
           (fun n : nat => (Err PersistenceUnavailable, S n))
           (counting_loader (PDict [("x", PInt 1)]))
           0 0 0 1 1 1 0%nat 1%nat 1%nat PersistenceUnavailable StatisticCache
           eq_refl eq_refl eq_refl).
Defined.

(** ** The subscription table under all the writing endpoints *)

Lemma subscribes_batch (pids : list string) :
  forall db, subscribes (batch_db pids db) = subscribes db.
Proof.
  induction pids as [|h rest IH]; intros db; simpl; [reflexivity|].
  rewrite IH. apply subscribes_install.
Qed.

Lemma counts_positive_add (p : SubscribeStatistic) (db : Session) :
  counts_positive (subscribes db) -> counts_positive (subscribes (add_db p db)).
Proof.
  intros Hpos.
  destruct (counts_positive_apply_op (Add p) db Hpos) as (v & db' & Hrun & H').
  simpl in Hrun. unfold add_db. now rewrite Hrun.
Qed.

Lemma subscription_table_kept_by_report (subs : list SubscribeStatistic) :
  forall db,
    well_formed db -> counts_positive (subscribes db) ->
    well_formed (report_db subs db)
    /\ counts_positive (subscribes (report_db subs db)).
Proof.
  induction subs as [|p rest IH]; intros db Hwf Hpos; simpl; [now split|].
  apply IH; [now apply well_formed_add | now apply counts_positive_add].
Qed.

Lemma handle_subscribes (r : request) (db : Session) :
  well_formed db -> counts_positive (subscribes db) ->
  exists v db',
    handle r db = Ok (v, db')
    /\ well_formed db'
    /\ counts_positive (subscribes db').
Proof.
  intros Hwf Hpos. destruct r as [pid|pids|p|p|subs]; simpl.
  - exists success, (install_db pid db).
    split; [apply plugin_install_ok|].
    unfold well_formed. rewrite subscribes_install. now split.
  - exists success, (batch_db pids db).
    split; [apply plugin_batch_install_ok|].
    unfold well_formed. rewrite subscribes_batch. now split.
  - destruct (TableInvariants.well_formed_apply_op (Add p) db Hwf)
      as (v & db' & Hrun & Hwf').
    destruct (counts_positive_apply_op (Add p) db Hpos)
      as (v2 & db2 & Hrun2 & Hpos2).
    rewrite Hrun in Hrun2. injection Hrun2 as <- <-.
    now exists v, db'.
  - destruct (TableInvariants.well_formed_apply_op (Done p) db Hwf)
      as (v & db' & Hrun & Hwf').
    destruct (counts_positive_apply_op (Done p) db Hpos)
      as (v2 & db2 & Hrun2 & Hpos2).
    rewrite Hrun in Hrun2. injection Hrun2 as <- <-.
    now exists v, db'.
  - exists success, (report_db subs db).
    split; [apply subscribe_report_ok|].
    now apply subscription_table_kept_by_report.
Qed.

(** X15: whatever is sent to the writing endpoints, batches included,
    the subscription table stays sound: every sequence of requests runs
    to its end and leaves a table with growing primary keys, at most one
    row per identity, and no count below 1. *)
Theorem subscription_table_stays_sound (rs : list request) (db : Session) :
  well_formed db -> counts_positive (subscribes db) ->
  exists db',
    handle_all rs db = Ok db'
    /\ well_formed db'
    /\ counts_positive (subscribes db').
Proof.
  revert db. induction rs as [|r rest IH]; intros db Hwf Hpos.
  - now exists db.
  - destruct (handle_subscribes r db Hwf Hpos) as (v & db1 & Hrun & Hwf1 & Hpos1).
    destruct (IH db1 Hwf1 Hpos1) as (db' & Hrest & Hwf' & Hpos').
    exists db'. split; [simpl; rewrite Hrun; exact Hrest | now split].
Qed.

Lemma subscription_table_stays_sound_witness :
  well_formed empty_db
  /\ exists db',
      handle_all [SubscribeReport [title_603; title_douban; title_603];
                  PluginBatchInstall ["a"; "b"]; SubscribeDone title_douban;
                  SubscribeDone title_douban; SubscribeAdd title_603_season_2]
        empty_db
      = Ok db'
      /\ well_formed db'.
Proof.
  split; [exact TableInvariants.well_formed_empty|].
  destruct (subscription_table_stays_sound
              [SubscribeReport [title_603; title_douban; title_603];
               PluginBatchInstall ["a"; "b"]; SubscribeDone title_douban;
               SubscribeDone title_douban; SubscribeAdd title_603_season_2]
              empty_db TableInvariants.well_formed_empty
              ltac:(constructor)) as (db' & Hrun & Hwf & _).
  exists db'. split; [exact Hrun | exact Hwf].
Defined.
